(** * The embedding synchronisation pipeline of [scripts/generate-embeddings.py]

    A shallow embedding of the four pipeline stages of the script

    - [fetch_studies]              (the anti-join that selects unembedded rows),
    - [generate_embeddings]        (prefixing, the model call, truncation),
    - [store_embeddings]           (the two bulk upsert dialects),
    - [save_embeddings_to_file] / [load_embeddings_from_file] (the [.npz] cache),

    and of the generate branch of [main] that chains them.

    Conventions.  Python [str] is [string]; Python [int] is [Z]; an exception
    is a value of [py_error] carried by [result]; a SQL table is the list of
    its rows in scan order; an [.npz] archive is a finite map from member
    names to arrays; the file system is a finite map from paths to
    archives.  Floating-point numbers are never computed with by the script:
    they are produced by the model and moved around, so their type [F] is a
    parameter of the development, together with [float_repr], the decimal
    text Python's [json] module prints for one of them. *)

From stdpp Require Import base option list strings gmap fin_maps pretty.
From Stdlib Require Import ZArith Lia Ascii String.

Open Scope string_scope.
Open Scope Z_scope.

(** ** Exceptions *)

Inductive py_error : Type :=
  | FileNotFoundError (msg : string)
  | KeyError (key : string)
  | ValueError (msg : string)
  | TypeError (msg : string)
  | AttributeError (msg : string)
  | DatabaseError (msg : string).

Inductive result (A : Type) : Type :=
  | Ok (a : A)
  | Raise (e : py_error).

Arguments Ok {A} a.
Arguments Raise {A} e.

#[global] Instance result_ret : MRet result := λ A a, Ok a.

#[global] Instance result_bind : MBind result := λ A B k m,
  match m with
  | Ok a => k a
  | Raise e => Raise e
  end.

Definition is_ok {A : Type} (m : result A) : bool :=
  match m with Ok _ => true | Raise _ => false end.

(** ** Python built-ins used by the script *)

(** [str.isspace] on one character, for the code points below 256. *)
Definition is_py_space (c : ascii) : bool :=
  let n := nat_of_ascii c in
  ((9 <=? n)%nat && (n <=? 13)%nat)
  || ((28 <=? n)%nat && (n <=? 32)%nat)
  || (n =? 133)%nat || (n =? 160)%nat.

Fixpoint lstrip (s : string) : string :=
  match s with
  | EmptyString => EmptyString
  | String c s' => if is_py_space c then lstrip s' else s
  end.

Fixpoint rstrip (s : string) : string :=
  match s with
  | EmptyString => EmptyString
  | String c s' =>
      match rstrip s' with
      | EmptyString => if is_py_space c then EmptyString else String c EmptyString
      | r => String c r
      end
  end.

(** [text.strip()] *)
Definition strip (s : string) : string := rstrip (lstrip s).

(** [s.split(sep)] for a one-character separator: never empty, one part more
    than there are separators. *)
Fixpoint py_split (sep : ascii) (s : string) : list string :=
  match s with
  | EmptyString => [EmptyString]
  | String c s' =>
      if Ascii.eqb c sep then EmptyString :: py_split sep s'
      else match py_split sep s' with
           | [] => [String c EmptyString]
           | p :: ps => String c p :: ps
           end
  end.

(** Number of occurrences of a character. *)
Fixpoint count_char (sep : ascii) (s : string) : nat :=
  match s with
  | EmptyString => 0%nat
  | String c s' => ((if Ascii.eqb c sep then 1 else 0) + count_char sep s')%nat
  end.

(** [sep.join(parts)] *)
Fixpoint py_join (sep : string) (parts : list string) : string :=
  match parts with
  | [] => EmptyString
  | [p] => p
  | p :: ps => p ++ sep ++ py_join sep ps
  end.

(** [range(0, stop, step)] for [stop = len(...)]: an error for a zero step,
    empty for a negative one. *)
Definition py_range0 (stop : nat) (step : Z) : result (list nat) :=
  if step =? 0 then Raise (ValueError "range() arg 3 must not be zero")
  else if step <? 0 then Ok []
  else
    let st := Z.to_nat step in
    Ok ((λ j, j * st)%nat <$> seq 0 ((stop + st - 1) / st)%nat).

(** [l[i:i+n]] for [0 <= i] and [0 < n]. *)
Definition py_slice {A : Type} (l : list A) (i : nat) (n : Z) : list A :=
  take (Z.to_nat n) (drop i l).

(** [zip(a, b, c)] *)
Fixpoint zip3 {A B C : Type} (a : list A) (b : list B) (c : list C)
  : list (A * B * C) :=
  match a, b, c with
  | x :: a', y :: b', z :: c' => (x, y, z) :: zip3 a' b' c'
  | _, _, _ => []
  end.

(** ** The relational store *)

(** The natural key [(study_accession, snps, strongest_snp_risk_allele)]. *)
Definition composite_key : Type := string * string * string.

(** Modelled from the spec: the schema of the two tables is not part of the
    script.  Section 3 of the specification gives the three key columns as
    strings in both tables (so they are not nullable here), and the SELECT
    of [fetch_studies] wraps the four text columns in COALESCE, so those
    are nullable. *)
Record catalog_row : Type := mk_catalog_row {
  gc_study_accession : string;
  gc_snps : string;
  gc_strongest_snp_risk_allele : string;
  gc_mapped_trait : option string;
  gc_disease_trait : option string;
  gc_study : option string;
  gc_mapped_gene : option string
}.

Definition timestamp : Type := nat.

Record embedding_row : Type := mk_embedding_row {
  se_study_accession : string;
  se_snps : string;
  se_strongest_snp_risk_allele : string;
  se_embedding : string;
  se_created_at : timestamp;
  se_updated_at : timestamp
}.

Definition gc_key (g : catalog_row) : composite_key :=
  (gc_study_accession g, gc_snps g, gc_strongest_snp_risk_allele g).

Definition se_key (s : embedding_row) : composite_key :=
  (se_study_accession s, se_snps s, se_strongest_snp_risk_allele s).

Inductive db_type : Type := Postgres | Sqlite.

(** A connection: the two tables, and the number of INSERT statements
    executed so far, which is where the database's clock is read. *)
Record connection : Type := mk_connection {
  gwas_catalog : list catalog_row;
  study_embeddings : list embedding_row;
  statements : nat
}.

(** [COALESCE(x, '')] *)
Definition coalesce (x : option string) : string := default EmptyString x.

(** The [combined_text] column of the SELECT. *)
Definition combined_text (g : catalog_row) : string :=
  coalesce (gc_mapped_trait g) ++ " " ++
  coalesce (gc_disease_trait g) ++ " " ++
  coalesce (gc_study g) ++ " " ++
  coalesce (gc_mapped_gene g).

(** The ON clause of the join. *)
Definition join_on (g : catalog_row) (s : embedding_row) : bool :=
  String.eqb (se_study_accession s) (gc_study_accession g)
  && String.eqb (se_snps s) (gc_snps g)
  && String.eqb (se_strongest_snp_risk_allele s) (gc_strongest_snp_risk_allele g).

(** [gwas_catalog gc LEFT JOIN study_embeddings se ON ...]: one output row
    for every match of a catalog row, and one padded with NULLs when it has
    none. *)
Definition left_join (gc : list catalog_row) (se : list embedding_row)
  : list (catalog_row * option embedding_row) :=
  g ← gc;
  match List.filter (join_on g) se with
  | [] => [(g, None)]
  | ms => (λ s, (g, Some s)) <$> ms
  end.

(** [WHERE se.study_accession IS NULL] *)
Definition where_se_is_null (r : catalog_row * option embedding_row) : bool :=
  match r.2 with
  | None => true
  | Some _ => false
  end.

(** A row of the result set. *)
Definition study : Type := string * string * string * string.

Definition select_columns (r : catalog_row * option embedding_row) : study :=
  let g := r.1 in
  (gc_study_accession g, gc_snps g, gc_strongest_snp_risk_allele g,
   combined_text g).

(** [(s[0], s[1], s[2])] and [s[3]] of a fetched row. *)
Definition study_key (s : study) : composite_key := (s.1.1.1, s.1.1.2, s.1.2).

Definition study_text (s : study) : string := s.2.

(** The result row of a catalog row. *)
Definition study_of (g : catalog_row) : study :=
  (gc_study_accession g, gc_snps g, gc_strongest_snp_risk_allele g,
   combined_text g).

(** The query of [fetch_studies] before any LIMIT clause. *)
Definition anti_join_query (conn : connection) : list study :=
  select_columns <$>
    List.filter where_se_is_null
      (left_join (gwas_catalog conn) (study_embeddings conn)).

(** [LIMIT n] for [n <> 0]: SQLite reads a negative limit as no limit,
    PostgreSQL rejects it. *)
Definition sql_limit (db : db_type) (n : Z) (rows : list study)
  : result (list study) :=
  if n <? 0 then
    match db with
    | Sqlite => Ok rows
    | Postgres => Raise (DatabaseError "LIMIT must not be negative")
    end
  else Ok (take (Z.to_nat n) rows).

(** [fetch_studies(conn, db_type, limit)].  [if limit:] is false for [None]
    and for [0]. *)
Definition fetch_studies (conn : connection) (db : db_type)
    (limit : option Z) : result (list study) :=
  match limit with
  | None => Ok (anti_join_query conn)
  | Some n =>
      if n =? 0 then Ok (anti_join_query conn)
      else sql_limit db n (anti_join_query conn)
  end.

(** [s.endswith(suffix)] *)
Definition ends_with (s suffix : string) : bool :=
  let n := String.length s in
  let m := String.length suffix in
  (m <=? n)%nat && String.eqb (substring (n - m) m s) suffix.

(** The file [numpy.savez_compressed(file, ...)] writes: it appends [.npz]
    to a name that does not end with it. *)
Definition npz_name (filepath : string) : string :=
  if ends_with filepath ".npz" then filepath else filepath ++ ".npz".

(** The keyword arguments of the one call of [model.encode]. *)
Record encode_call : Type := mk_encode_call {
  sentences : list string;
  batch_size : Z;
  show_progress_bar : bool;
  normalize_embeddings : bool;
  convert_to_numpy : bool
}.

(** The task prefix for document embedding. *)
Definition task_prefix : string := "search_document: ".

(** [[f"search_document: {text.strip()}" for text in texts]] *)
Definition prefixed_texts (texts : list string) : list string :=
  (λ text, task_prefix ++ strip text) <$> texts.

(** The stop index of the slice [[:d]] on an axis of length [n]. *)
Definition slice_stop (n : nat) (d : Z) : nat :=
  if d <? 0 then Z.to_nat (Z.max 0 (Z.of_nat n + d))
  else Nat.min (Z.to_nat d) n.

(** Command-line options of the generate branch of [main]. *)
Record args : Type := mk_args {
  arg_batch_size : Z;
  arg_dimensions : Z;
  arg_limit : option Z;
  arg_upload_batch_size : Z;
  arg_save_local : option string
}.

Section Pipeline.

(** The floating-point numbers, and the text [json.dumps] prints for one. *)
Context {F : Type}.
Variable float_repr : F → string.

(** The database clock: the time read by the statement numbered [n]. *)
Variable clock : nat → timestamp.

(** A two-dimensional [numpy.ndarray]: [shape[1]] and the rows. *)
Record ndarray : Type := mk_ndarray {
  ncols : nat;
  rows : list (list F)
}.

(** A loaded [SentenceTransformer], seen through [encode]. *)
Definition sentence_transformer : Type := encode_call → ndarray.

(** ** [generate_embeddings] *)

(** The call [model.encode(prefixed_texts, batch_size=batch_size, ...)]. *)
Definition generate_embeddings_call (texts : list string) (batch : Z)
  : encode_call :=
  {| sentences := prefixed_texts texts;
     batch_size := batch;
     show_progress_bar := true;
     normalize_embeddings := true;
     convert_to_numpy := true |}.

(** [embeddings[:, :dimensions]] *)
Definition truncate_columns (embeddings : ndarray) (dimensions : Z) : ndarray :=
  let d := slice_stop (ncols embeddings) dimensions in
  {| ncols := d; rows := take d <$> rows embeddings |}.

Definition generate_embeddings (model : sentence_transformer)
    (texts : list string) (batch : Z) (dimensions : Z) : ndarray :=
  let embeddings := model (generate_embeddings_call texts batch) in
  if dimensions <? Z.of_nat (ncols embeddings)
  then truncate_columns embeddings dimensions
  else embeddings.

(** ** [store_embeddings] *)

(** [json.dumps(emb.tolist(), separators=(item_sep, _))] of a list of
    floats. *)
Definition json_dumps (item_sep : string) (emb : list F) : string :=
  "[" ++ py_join item_sep (float_repr <$> emb) ++ "]".

(** One VALUES row of
    [INSERT ... ON CONFLICT (study_accession, snps, strongest_snp_risk_allele)
     DO NOTHING]: a row whose key is already there, from before or from an
    earlier row of the same statement, is skipped. *)
Definition insert_do_nothing (now : timestamp) (tbl : list embedding_row)
    (t : string * string * string * string) : list embedding_row :=
  let '(study_acc, snps, risk_allele, embedding_json) := t in
  if decide ((study_acc, snps, risk_allele) ∈ se_key <$> tbl) then tbl
  else tbl ++ [mk_embedding_row study_acc snps risk_allele embedding_json now now].

(** [SET embedding = ?, updated_at = datetime('now')] on a conflicting row. *)
Definition do_update_set (now : timestamp) (k : composite_key)
    (embedding_json : string) (r : embedding_row) : embedding_row :=
  if decide (se_key r = k) then
    {| se_study_accession := se_study_accession r;
       se_snps := se_snps r;
       se_strongest_snp_risk_allele := se_strongest_snp_risk_allele r;
       se_embedding := embedding_json;
       se_created_at := se_created_at r;
       se_updated_at := now |}
  else r.

(** One execution of
    [INSERT ... VALUES (?, ?, ?, ?, ...) ON CONFLICT(...) DO UPDATE
     SET embedding = ?, ...] with five parameters. *)
Definition insert_do_update (now : timestamp) (tbl : list embedding_row)
    (t : string * string * string * string * string) : list embedding_row :=
  let '(study_acc, snps, risk_allele, embedding_json, embedding_json') := t in
  if decide ((study_acc, snps, risk_allele) ∈ se_key <$> tbl) then
    do_update_set now (study_acc, snps, risk_allele) embedding_json' <$> tbl
  else tbl ++ [mk_embedding_row study_acc snps risk_allele embedding_json now now].

(** [psycopg2.extras.execute_values(cursor, sql, chunk, page_size=chunk_size)]:
    the chunk fits one page, so it is one statement; [now] is NOW(), the
    time of the transaction. *)
Definition execute_values (now : timestamp) (conn : connection)
    (chunk : list (string * string * string * string)) : connection :=
  {| gwas_catalog := gwas_catalog conn;
     study_embeddings := foldl (insert_do_nothing now) (study_embeddings conn) chunk;
     statements := S (statements conn) |}.

(** One statement of [cursor.executemany]. *)
Definition execute_one (conn : connection)
    (t : string * string * string * string * string) : connection :=
  {| gwas_catalog := gwas_catalog conn;
     study_embeddings :=
       insert_do_update (clock (statements conn)) (study_embeddings conn) t;
     statements := S (statements conn) |}.

(** [cursor.executemany(sql, batch_data)] followed by [conn.commit()]. *)
Definition executemany (conn : connection)
    (batch_data : list (string * string * string * string * string))
  : connection :=
  foldl execute_one conn batch_data.

Definition chunk_size : Z := 10000.

(** The PostgreSQL branch: [data_tuples]. *)
Definition data_tuples (composite_keys : list composite_key)
    (embeddings : ndarray) : list (string * string * string * string) :=
  (λ p, let '((study_acc, snps, risk_allele), emb) := p in
        (study_acc, snps, risk_allele, json_dumps "," emb))
    <$> zip composite_keys (rows embeddings).

(** The SQLite branch: [batch_data] of one batch. *)
Definition batch_data (batch_keys : list composite_key)
    (batch_embeddings : list (list F))
  : list (string * string * string * string * string) :=
  (λ p, let '((study_acc, snps, risk_allele), emb) := p in
        (study_acc, snps, risk_allele, json_dumps ", " emb, json_dumps ", " emb))
    <$> zip batch_keys batch_embeddings.

(** [store_embeddings]: the two branches as written.  The exceptions are
    those the Python of the function raises itself ([range] with a zero
    step); an error of the driver or of the database engine in the middle
    of an upload, after which SQLite keeps the batches already committed,
    is outside this model, so nothing here says that a store cannot
    fail. *)
Definition store_embeddings (conn : connection) (db : db_type)
    (composite_keys : list composite_key) (embeddings : ndarray)
    (batch : Z) : result connection :=
  let total := List.length composite_keys in
  match db with
  | Postgres =>
      let tuples := data_tuples composite_keys embeddings in
      starts ← py_range0 (List.length tuples) chunk_size;
      let now := clock (statements conn) in
      mret (foldl (λ c i, execute_values now c (py_slice tuples i chunk_size))
                  conn starts)
  | Sqlite =>
      starts ← py_range0 total batch;
      mret (foldl (λ c i,
                     let batch_keys := py_slice composite_keys i batch in
                     let batch_embeddings := py_slice (rows embeddings) i batch in
                     executemany c (batch_data batch_keys batch_embeddings))
                  conn starts)
  end.

(** ** The local cache *)

(** A member of an [.npz] archive: an object array of strings, a
    two-dimensional float array, or an integer scalar.  The script gives no
    meaning to a member of another type where it expects one of these:
    [tolist_strings] and [py_int] report it as [TypeError]. *)
Inductive npy : Type :=
  | NpyObjects (items : list string)
  | NpyFloats (a : ndarray)
  | NpyScalar (z : Z).

(** [data[name]]: for a member the archive does not hold, [NpzFile] raises
    [KeyError(f"{name} is not a file in the archive")]. *)
Definition getitem (data : gmap string npy) (name : string) : result npy :=
  match data !! name with
  | Some v => Ok v
  | None => Raise (KeyError (name ++ " is not a file in the archive"))
  end.

(** [name in data] *)
Definition contains (data : gmap string npy) (name : string) : bool :=
  bool_decide (is_Some (data !! name)).

(** [int(v)] *)
Definition py_int (v : npy) : result Z :=
  match v with
  | NpyScalar z => Ok z
  | _ => Raise (TypeError "only integer scalar arrays can be converted")
  end.

(** [v.tolist()] where a list of strings is expected. *)
Definition tolist_strings (v : npy) : result (list string) :=
  match v with
  | NpyObjects items => Ok items
  | _ => Raise (TypeError "not an array of strings")
  end.

(** [np.savez_compressed(filepath, study_accessions=..., ...)]: the archive
    written. *)
Definition archive_of (composite_keys : list composite_key)
    (embeddings : ndarray) : gmap string npy :=
  <["study_accessions" := NpyObjects ((λ k, k.1.1) <$> composite_keys)]>
  (<["snps" := NpyObjects ((λ k, k.1.2) <$> composite_keys)]>
  (<["risk_alleles" := NpyObjects ((λ k, k.2) <$> composite_keys)]>
  (<["embeddings" := NpyFloats embeddings]>
  (<["dimensions" := NpyScalar (Z.of_nat (ncols embeddings))]> ∅)))).

(** [save_embeddings_to_file]: the file system after the call and its
    outcome.  The archive is written first; [os.path.getsize(filepath)]
    then raises when there is no file under the name as given.  The file
    system is a map from names to archives: a write that the operating
    system refuses (a missing directory, a path that cannot be written)
    has no place in it, and the text of the operating system's error is
    not modelled, so the properties below speak of a normal return only
    as a hypothesis or as something that did not happen. *)
Definition save_embeddings_to_file (fs : gmap string (gmap string npy))
    (filepath : string) (composite_keys : list composite_key)
    (embeddings : ndarray)
  : gmap string (gmap string npy) * result unit :=
  let fs' := <[npz_name filepath := archive_of composite_keys embeddings]> fs in
  (fs',
   match fs' !! filepath with
   | Some _ => Ok tt
   | None => Raise (FileNotFoundError filepath)
   end).

(** The body of the loop over [study_keys]. *)
Definition parse_study_key (key : string) : result composite_key :=
  match py_split "|" key with
  | [p0; p1; p2] => Ok (p0, p1, p2)
  | parts =>
      Raise (ValueError ("Invalid study_key format: " ++ key ++
                         " (expected 3 parts, got " ++
                         pretty (List.length parts) ++ ")"))
  end.

(** The [if]/[elif]/[else] that rebuilds [composite_keys]. *)
Definition load_composite_keys (data : gmap string npy)
  : result (list composite_key) :=
  if contains data "study_keys" then
    study_keys ← getitem data "study_keys" ≫= tolist_strings;
    mapM parse_study_key study_keys
  else if contains data "study_accessions" then
    study_accessions ← getitem data "study_accessions" ≫= tolist_strings;
    snps ← getitem data "snps" ≫= tolist_strings;
    risk_alleles ← getitem data "risk_alleles" ≫= tolist_strings;
    mret (zip3 study_accessions snps risk_alleles)
  else
    Raise (ValueError
      "Invalid file format: missing 'study_keys' or 'study_accessions' key").

Definition load_embeddings_from_file (fs : gmap string (gmap string npy))
    (filepath : string) : result (list composite_key * npy) :=
  match fs !! filepath with
  | None => Raise (FileNotFoundError ("File not found: " ++ filepath))
  | Some data =>
      embeddings ← getitem data "embeddings";
      dimensions ← getitem data "dimensions" ≫= py_int;
      composite_keys ← load_composite_keys data;
      mret (composite_keys, embeddings)
  end.

(** ** The generate branch of [main] *)

(** What a run acts on: the database behind the connection and the files. *)
Record world : Type := mk_world {
  w_conn : connection;
  w_fs : gmap string (gmap string npy)
}.

(** From "Generate mode" to the end of [main]: the world after the run and
    the exit status.  A failed local save is only a warning, and
    [if args.save_local:] is false for the empty path as for [None].  The
    only store failure of this model happens before the first write, so
    the connection is then as it was; what [conn.rollback()] leaves after
    a driver error in the middle of an upload is outside it (see
    [store_embeddings]). *)
Definition main_generate (model : sentence_transformer) (a : args)
    (db : db_type) (w : world) : world * Z :=
  match fetch_studies (w_conn w) db (arg_limit a) with
  | Raise _ => (w, 1)
  | Ok [] => (w, 0)
  | Ok studies =>
      let composite_keys := study_key <$> studies in
      let texts := study_text <$> studies in
      let embeddings :=
        generate_embeddings model texts (arg_batch_size a) (arg_dimensions a) in
      let fs' :=
        match arg_save_local a with
        | Some path =>
            if String.eqb path "" then w_fs w
            else (save_embeddings_to_file (w_fs w) path composite_keys embeddings).1
        | None => w_fs w
        end in
      match store_embeddings (w_conn w) db composite_keys embeddings
                             (arg_upload_batch_size a) with
      | Raise _ => ({| w_conn := w_conn w; w_fs := fs' |}, 1)
      | Ok conn' => ({| w_conn := conn'; w_fs := fs' |}, 0)
      end
  end.

End Pipeline.

(** * The remaining functions of the script *)

(** ** [get_db_connection] *)

(** What the function reads from its surroundings: the process
    environment, [os.path.exists], and the two database drivers. *)
Record os_env : Type := mk_os_env {
  environ : gmap string string;
  path_exists : string → bool;
  psycopg2_connect : string → result connection;
  sqlite3_connect : string → result connection
}.

(** The lines the function prints, by what they show. *)
Inductive log_line : Type :=
  | ConnectingToPostgres
  | Host (safe_conn : string)
  | ConnectingToSqlite (db_path : string).

(** [c in s] for a character. *)
Fixpoint has_char (c : ascii) (s : string) : bool :=
  match s with
  | EmptyString => false
  | String c' s' => Ascii.eqb c' c || has_char c s'
  end.

(** [postgres_conn_str.split('@')[-1] if '@' in postgres_conn_str
     else postgres_conn_str] *)
Definition safe_conn_of (postgres_conn_str : string) : string :=
  if has_char "@" postgres_conn_str
  then default EmptyString (last (py_split "@" postgres_conn_str))
  else postgres_conn_str.

(** The SQLite branch: the path comes from [GWAS_DB_PATH], with a default. *)
Definition connect_sqlite (os : os_env)
  : list log_line * result (connection * db_type) :=
  let db_path :=
    default "localdata/gwas_catalog.sqlite" (environ os !! "GWAS_DB_PATH") in
  ([ConnectingToSqlite db_path],
   if path_exists os db_path then
     conn ← sqlite3_connect os db_path; mret (conn, Sqlite)
   else Raise (FileNotFoundError ("SQLite database not found at " ++ db_path))).

(** [get_db_connection(postgres_conn_str)]: what is printed, and the
    outcome.  [if postgres_conn_str:] is false for [None] and for the
    empty string. *)
Definition get_db_connection (os : os_env) (postgres_conn_str : option string)
  : list log_line * result (connection * db_type) :=
  match postgres_conn_str with
  | None => connect_sqlite os
  | Some s =>
      if String.eqb s "" then connect_sqlite os
      else
        ([ConnectingToPostgres; Host (safe_conn_of s)],
         conn ← psycopg2_connect os s; mret (conn, Postgres))
  end.

(** [get_db_connection(os.environ.get('POSTGRES_DB'))], as [main] calls it. *)
Definition connect_from_environment (os : os_env)
  : list log_line * result (connection * db_type) :=
  get_db_connection os (environ os !! "POSTGRES_DB").

(** ** The load branch of [main] *)

Section Restore.

Context {F : Type}.
Variable float_repr : F → string.
Variable clock : nat → timestamp.

(** From "Load mode" to its [sys.exit], for a non-empty [--load-local]
    path: the world after the run and the exit status.  The loader hands
    back the [embeddings] member whatever it is, and [store_embeddings]
    iterates over it; the run is modelled when the members of the archive
    are of the types the script expects, and is [None], not modelled, when
    the [embeddings] member is not a float array or when the loader meets
    a member of another type ([TypeError], see [npy]).  As in the generate
    branch, the only store failure of this model happens before the first
    write. *)
Definition main_load (load_local : string) (a : args) (db : db_type)
    (w : @world F) : option (@world F * Z) :=
  match load_embeddings_from_file (w_fs w) load_local with
  | Raise (TypeError _) => None
  | Raise _ => Some (w, 1)
  | Ok (composite_keys, NpyFloats embeddings) =>
      match store_embeddings float_repr clock (w_conn w) db composite_keys
              embeddings (arg_upload_batch_size a) with
      | Raise _ => Some (w, 1)
      | Ok conn' => Some ({| w_conn := conn'; w_fs := w_fs w |}, 0)
      end
  | Ok (_, _) => None
  end.

End Restore.

(** * The vocabulary of the properties *)

(** A string of whitespace only; a string whose first, or last, character
    is whitespace. *)
Fixpoint all_space (s : string) : bool :=
  match s with
  | EmptyString => true
  | String c s' => is_py_space c && all_space s'
  end.

Definition starts_with_space (s : string) : bool :=
  match s with
  | EmptyString => false
  | String c _ => is_py_space c
  end.

Fixpoint ends_with_space (s : string) : bool :=
  match s with
  | EmptyString => false
  | String c EmptyString => is_py_space c
  | String _ s' => ends_with_space s'
  end.

(** A legacy key string that splits into exactly three parts. *)
Definition three_parts (key : string) : Prop :=
  List.length (py_split "|" key) = 3%nat.

#[global] Instance three_parts_dec key : Decision (three_parts key).
Proof. unfold three_parts. apply _. Defined.

(** The text of the format error for a key. *)
Definition invalid_study_key (key : string) : py_error :=
  ValueError ("Invalid study_key format: " ++ key ++
              " (expected 3 parts, got " ++
              pretty (List.length (py_split "|" key)) ++ ")").

(** The key of a VALUES row, of a parameter tuple, and the stored vectors
    (as JSON text) of the rows of a key. *)
Definition tuple_key (t : string * string * string * string) : composite_key :=
  (t.1.1.1, t.1.1.2, t.1.2).

Definition param_key (t : string * string * string * string * string)
  : composite_key :=
  (t.1.1.1.1, t.1.1.1.2, t.1.1.2).

Definition embeddings_of (k : composite_key) (tbl : list embedding_row)
  : list string :=
  se_embedding <$> filter (λ r, se_key r = k) tbl.

(** [store_embeddings] called on a list of (key, vector) pairs: the keys
    and, as the rows of an array of width [d], the vectors. *)
Definition store_pairs {F : Type} (float_repr : F → string)
    (clock : nat → timestamp) (conn : connection) (db : db_type)
    (kvs : list (composite_key * list F)) (d : nat) (batch : Z)
  : result connection :=
  store_embeddings float_repr clock conn db
    kvs.*1 {| ncols := d; rows := kvs.*2 |} batch.

(** The connection a run of the generate branch leaves, as a function of
    the connection it starts from. *)
Definition generate_conn {F : Type} (float_repr : F → string)
    (clock : nat → timestamp) (model : @sentence_transformer F) (a : args)
    (db : db_type) (conn : connection) : connection :=
  match fetch_studies conn db (arg_limit a) with
  | Raise _ => conn
  | Ok [] => conn
  | Ok studies =>
      match store_embeddings float_repr clock conn db (study_key <$> studies)
              (generate_embeddings model (study_text <$> studies)
                 (arg_batch_size a) (arg_dimensions a))
              (arg_upload_batch_size a) with
      | Raise _ => conn
      | Ok conn' => conn'
      end
  end.

(** An array all of whose rows have [shape[1]] components. *)
Definition well_shaped {F : Type} (a : @ndarray F) : Prop :=
  Forall (λ r, List.length r = ncols a) (rows a).

(** The [created_at] values of the rows of a key. *)
Definition created_of (k : composite_key) (tbl : list embedding_row)
  : list timestamp :=
  se_created_at <$> filter (λ r, se_key r = k) tbl.

(** The legacy text of a key. *)
Definition legacy_key (k : composite_key) : string :=
  k.1.1 ++ "|" ++ k.1.2 ++ "|" ++ k.2.

(** A key none of whose components holds the delimiter. *)
Definition bar_free (k : composite_key) : Prop :=
  count_char "|" k.1.1 = 0%nat ∧ count_char "|" k.1.2 = 0%nat
  ∧ count_char "|" k.2 = 0%nat.

(** * Concrete inputs *)

(** A catalog of one record and an empty [study_embeddings] table. *)
Definition one_record_conn : connection :=
  {| gwas_catalog :=
       [mk_catalog_row "GCST0001" "rs123" "A" (Some "height") None None None];
     study_embeddings := [];
     statements := 0%nat |}.

(** A model that answers every call with the same two rows of width 3. *)
Definition two_row_model : @sentence_transformer Z :=
  λ _, {| ncols := 3; rows := [[1; 2; 3]; [4; 5; 6]] |}.

(** One row of two components, as the model would return it. *)
Definition one_row : @ndarray Z := {| ncols := 2; rows := [[1; 2]] |}.

(** An archive in the current schema that also holds the legacy member. *)
Definition both_markers_archive : gmap string (@npy Z) :=
  <["study_keys" := NpyObjects ["LEGACY|rs1|A"]]>
    (archive_of [("CURRENT", "rs2", "G")] one_row).

(** A legacy archive: one well-formed key, then one with a single
    delimiter. *)
Definition legacy_archive : gmap string (@npy Z) :=
  <["study_keys" := NpyObjects ["GCST0001|rs123|A"; "GCST0002|rs456"]]>
  (<["embeddings" := NpyFloats one_row]>
  (<["dimensions" := NpyScalar 2]> ∅)).

(** A current-schema archive whose scalar says 999 for vectors of width 2,
    and which has two keys for one row. *)
Definition mismatched_archive : gmap string (@npy Z) :=
  <["dimensions" := NpyScalar 999]>
    (archive_of [("GCST0001", "rs123", "A"); ("GCST0002", "rs456", "C")] one_row).

(** File systems holding one of these archives each. *)
Definition both_markers_fs : gmap string (gmap string (@npy Z)) :=
  {["cache.npz" := both_markers_archive]}.

Definition legacy_fs : gmap string (gmap string (@npy Z)) :=
  {["old.npz" := legacy_archive]}.

Definition mismatched_fs : gmap string (gmap string (@npy Z)) :=
  {["cache.npz" := mismatched_archive]}.

(** A database clock that reads the statement number. *)
Definition tick_clock : nat → timestamp := λ n, n.

(** The key of the examples of the specification. *)
Definition sample_key : composite_key := ("GCST0001", "rs123", "A").

(** A model that returns the row [[1; 2; 3]] for every sentence. *)
Definition constant_model : @sentence_transformer Z :=
  λ call, {| ncols := 3; rows := (λ _, [1; 2; 3]) <$> sentences call |}.

(** Two catalog records, the first of which already has its embedding. *)
Definition two_record_world : @world Z :=
  {| w_conn :=
       {| gwas_catalog :=
            [mk_catalog_row "GCST0001" "rs123" "A" (Some "height") None None None;
             mk_catalog_row "GCST0002" "rs456" "C" None (Some "bmi") None None];
          study_embeddings :=
            [mk_embedding_row "GCST0001" "rs123" "A" "[9,9]" 0%nat 0%nat];
          statements := 1%nat |};
     w_fs := ∅ |}.

(** Three catalog records and no embedding yet. *)
Definition three_record_world : @world Z :=
  {| w_conn :=
       {| gwas_catalog :=
            [mk_catalog_row "GCST0001" "rs123" "A" (Some "height") None None None;
             mk_catalog_row "GCST0002" "rs456" "C" None (Some "bmi") None None;
             mk_catalog_row "GCST0003" "rs789" "T" None None None None];
          study_embeddings := [];
          statements := 0%nat |};
     w_fs := ∅ |}.

(** The defaults of the option parser, and a run capped at one record
    that also saves a local copy. *)
Definition default_args : args :=
  {| arg_batch_size := 512;
     arg_dimensions := 512;
     arg_limit := None;
     arg_upload_batch_size := 1000;
     arg_save_local := None |}.

Definition limit_one_args : args :=
  {| arg_batch_size := 512;
     arg_dimensions := 2;
     arg_limit := Some 1;
     arg_upload_batch_size := 1000;
     arg_save_local := Some "backup.npz" |}.

(** Closed goals about concrete archives are settled by evaluation. *)
Ltac by_compute := vm_compute; reflexivity.

(** Closed membership goals are settled by evaluating their decision. *)
Ltac by_decide := apply (bool_decide_unpack _); vm_compute; reflexivity.

(** * Properties *)

(** ** [fetch_studies]: the anti-join *)

Lemma join_on_key g s : join_on g s = true ↔ se_key s = gc_key g.
Proof.
  unfold join_on, se_key, gc_key.
  rewrite !andb_true_iff, !String.eqb_eq. split.
  - intros [[-> ->] ->]. reflexivity.
  - intros [= -> -> ->]. done.
Qed.

Lemma filter_join_on_nil g se :
  List.filter (join_on g) se = [] ↔ gc_key g ∉ se_key <$> se.
Proof.
  induction se as [|s se IH]; simpl.
  - split; [intros _ | done]. apply not_elem_of_nil.
  - rewrite not_elem_of_cons, <- IH.
    destruct (join_on g s) eqn:E.
    + apply join_on_key in E. split; [done | intros [H _]; congruence].
    + split; [intros H; split; [|done] | intros [_ H]; done].
      intros Hk. symmetry in Hk. apply join_on_key in Hk. congruence.
Qed.

Lemma filter_null_fmap_some g (ms : list embedding_row) :
  List.filter where_se_is_null ((λ s, (g, Some s)) <$> ms) = [].
Proof. induction ms as [|m ms IH]; simpl; done. Qed.

(** The SQL text computes the catalog rows, in scan order, whose key has no
    row in [study_embeddings]. *)
Lemma anti_join_query_filter conn :
  anti_join_query conn =
    study_of <$> filter (λ g, gc_key g ∉ se_key <$> study_embeddings conn)
                        (gwas_catalog conn).
Proof.
  unfold anti_join_query, left_join.
  induction (gwas_catalog conn) as [|g gc IH]; [done|].
  rewrite bind_cons, List.filter_app, fmap_app, IH, filter_cons.
  destruct (List.filter (join_on g) (study_embeddings conn)) as [|m ms] eqn:E.
  - apply filter_join_on_nil in E. rewrite decide_True by done. done.
  - rewrite decide_False.
    + rewrite filter_null_fmap_some. done.
    + intros Hn. apply filter_join_on_nil in Hn. congruence.
Qed.

Lemma study_key_of g : study_key (study_of g) = gc_key g.
Proof. done. Qed.

Lemma elem_of_anti_join_query conn s :
  s ∈ anti_join_query conn ↔
  ∃ g, s = study_of g ∧ g ∈ gwas_catalog conn
       ∧ gc_key g ∉ se_key <$> study_embeddings conn.
Proof.
  rewrite anti_join_query_filter, list_elem_of_fmap.
  split; intros (g & -> & H); exists g; split; try done.
  - by apply list_elem_of_filter in H as [? ?].
  - apply list_elem_of_filter. destruct H. done.
Qed.

Lemma fetch_studies_sublist conn db limit studies :
  fetch_studies conn db limit = Ok studies →
  ∃ n, studies = take n (anti_join_query conn).
Proof.
  unfold fetch_studies, sql_limit. intros H.
  destruct limit as [n|].
  - destruct (n =? 0); [injection H as <-; exists (List.length (anti_join_query conn)); by rewrite firstn_all|].
    destruct (n <? 0).
    + destruct db; [done|]. injection H as <-.
      exists (List.length (anti_join_query conn)). by rewrite firstn_all.
    + injection H as <-. eauto.
  - injection H as <-. exists (List.length (anti_join_query conn)). by rewrite firstn_all.
Qed.

(** C3.  Whatever the two tables hold, no row that [fetch_studies] returns
    has a key present in [study_embeddings] (so none has a key present in
    both tables), each returned row is the projection of a catalog row, and,
    called without a limit, it returns the row of every catalog record whose
    key is present in the catalog only. *)
Theorem fetch_studies_anti_join (conn : connection) :
  (∀ db limit studies s,
     fetch_studies conn db limit = Ok studies → s ∈ studies →
     (study_key s ∉ se_key <$> study_embeddings conn)
     ∧ (∃ g, g ∈ gwas_catalog conn ∧ s = study_of g))
  ∧ (∀ db, ∃ studies,
       fetch_studies conn db None = Ok studies
       ∧ ∀ g, g ∈ gwas_catalog conn →
              gc_key g ∉ se_key <$> study_embeddings conn →
              study_of g ∈ studies).
Proof.
  split.
  - intros db limit studies s Hf Hs.
    apply fetch_studies_sublist in Hf as [n ->].
    apply subseteq_take in Hs.
    apply elem_of_anti_join_query in Hs as (g & -> & Hg & Hk).
    rewrite study_key_of. eauto.
  - intros db. exists (anti_join_query conn). split; [done|].
    intros g Hg Hk. apply elem_of_anti_join_query. eauto.
Qed.

Lemma fetch_studies_anti_join_witness :
  (study_key ("GCST0002", "rs456", "C", " bmi  ")
     ∉ se_key <$> study_embeddings (w_conn two_record_world))
  ∧ (∃ g, g ∈ gwas_catalog (w_conn two_record_world)
          ∧ ("GCST0002", "rs456", "C", " bmi  ") = study_of g).
Proof.
  apply (proj1 (fetch_studies_anti_join (w_conn two_record_world))
               Postgres None [("GCST0002", "rs456", "C", " bmi  ")]
               ("GCST0002", "rs456", "C", " bmi  ")).
  - reflexivity.
  - by_decide.
Defined.

(** ** [fetch_studies]: the limit *)

(** C9, as stated, fails at the limit 0: [if limit:] is false for 0, no
    LIMIT clause is added, and the one record lacking an embedding is
    returned, which is more than 0 records. *)
Lemma fetch_studies_limit_zero_unbounded :
  ¬ (∀ (conn : connection) (db : db_type) (n : Z) (studies : list study),
       fetch_studies conn db (Some n) = Ok studies →
       Z.of_nat (List.length studies) ≤ n).
Proof.
  intros H.
  specialize (H one_record_conn Sqlite 0 _ eq_refl).
  vm_compute in H. apply H. reflexivity.
Qed.

(** C9, amended.  For every positive limit [n], on both backends,
    [fetch_studies] returns the first [n] rows of the anti-join, hence at
    most [n] records; when no limit is supplied it returns every record
    lacking an embedding. *)
Theorem fetch_studies_limit (conn : connection) (db : db_type) :
  (∀ n, 0 < n →
     ∃ studies,
       fetch_studies conn db (Some n) = Ok studies
       ∧ studies = take (Z.to_nat n) (anti_join_query conn)
       ∧ Z.of_nat (List.length studies) ≤ n)
  ∧ (∃ studies,
       fetch_studies conn db None = Ok studies
       ∧ ∀ g, g ∈ gwas_catalog conn →
              gc_key g ∉ se_key <$> study_embeddings conn →
              study_of g ∈ studies).
Proof.
  split.
  - intros n Hn. unfold fetch_studies, sql_limit.
    destruct (Z.eqb_spec n 0) as [->|_]; [lia|].
    destruct (Z.ltb_spec n 0) as [?|_]; [lia|].
    eexists. split; [done|]. split; [done|].
    rewrite length_take. lia.
  - exists (anti_join_query conn). split; [done|].
    intros g Hg Hk. apply elem_of_anti_join_query. eauto.
Qed.

(** Beyond the claim: the limit 0 is no limit, on both backends. *)
Lemma fetch_studies_limit_zero conn db :
  fetch_studies conn db (Some 0) = fetch_studies conn db None.
Proof. reflexivity. Qed.

Lemma fetch_studies_limit_witness :
  ∃ studies,
    fetch_studies one_record_conn Postgres (Some 1) = Ok studies
    ∧ studies = take (Z.to_nat 1) (anti_join_query one_record_conn)
    ∧ Z.of_nat (List.length studies) ≤ 1.
Proof.
  apply (proj1 (fetch_studies_limit one_record_conn Postgres) 1). lia.
Defined.

(** Beyond the claim: a negative limit is no limit on SQLite and an error
    on PostgreSQL. *)
Lemma fetch_studies_negative_limit conn n :
  n < 0 →
  fetch_studies conn Sqlite (Some n) = Ok (anti_join_query conn)
  ∧ is_ok (fetch_studies conn Postgres (Some n)) = false.
Proof.
  intros Hn. unfold fetch_studies, sql_limit.
  destruct (Z.eqb_spec n 0) as [->|_]; [lia|].
  destruct (Z.ltb_spec n 0) as [_|?]; [done|lia].
Qed.

(** ** [str.strip] and [str.split] *)

Lemma string_app_cons c (a b : string) : String c a ++ b = String c (a ++ b).
Proof. reflexivity. Qed.

Lemma string_app_nil_l (b : string) : EmptyString ++ b = b.
Proof. reflexivity. Qed.

Lemma lstrip_spec s :
  ∃ l, s = l ++ lstrip s ∧ all_space l = true
       ∧ starts_with_space (lstrip s) = false.
Proof.
  induction s as [|c s (l & IH & Hl & Hs)]; simpl.
  - exists EmptyString. done.
  - destruct (is_py_space c) eqn:E.
    + exists (String c l). rewrite string_app_cons. simpl. rewrite E, Hl.
      split; [congruence | done].
    + exists EmptyString. simpl. done.
Qed.

Lemma rstrip_spec s :
  ∃ r, s = rstrip s ++ r ∧ all_space r = true
       ∧ ends_with_space (rstrip s) = false.
Proof.
  induction s as [|c s (r & IH & Hr & Hs)]; simpl.
  - exists EmptyString. done.
  - destruct (rstrip s) as [|c' t] eqn:E.
    + rewrite string_app_nil_l in IH. destruct (is_py_space c) eqn:Ec.
      * exists (String c r). rewrite string_app_nil_l. simpl. rewrite Ec, Hr.
        split; [congruence|done].
      * exists r. rewrite string_app_cons, string_app_nil_l. simpl. rewrite Ec.
        split; [congruence|done].
    + exists r. rewrite string_app_cons. split; [congruence|]. split; [done|].
      simpl in *. done.
Qed.

Lemma rstrip_starts s :
  starts_with_space s = false → starts_with_space (rstrip s) = false.
Proof.
  destruct s as [|c s]; simpl; [done|]. intros Hc.
  destruct (rstrip s); [rewrite Hc|]; done.
Qed.

(** [strip] removes a run of whitespace at each end and nothing else, and
    what is left neither starts nor ends with whitespace. *)
Lemma strip_spec s :
  ∃ l r, s = l ++ strip s ++ r
         ∧ all_space l = true ∧ all_space r = true
         ∧ starts_with_space (strip s) = false
         ∧ ends_with_space (strip s) = false.
Proof.
  destruct (lstrip_spec s) as (l & Hs & Hl & Hst).
  destruct (rstrip_spec (lstrip s)) as (r & Hs' & Hr & Hen).
  exists l, r. unfold strip. rewrite <- Hs', <- Hs.
  repeat split; try done. by apply rstrip_starts.
Qed.

Lemma rstrip_id s : ends_with_space s = false → rstrip s = s.
Proof.
  induction s as [|c s IH]; simpl; [done|].
  destruct s as [|c' s'].
  - simpl. intros ->. done.
  - intros H. rewrite IH by done. done.
Qed.

Lemma strip_id s :
  starts_with_space s = false → ends_with_space s = false → strip s = s.
Proof.
  intros Hs He. unfold strip.
  destruct s as [|c s]; [done|]. simpl in Hs. simpl lstrip. rewrite Hs.
  by apply rstrip_id.
Qed.

Lemma py_split_length sep s :
  List.length (py_split sep s) = S (count_char sep s).
Proof.
  induction s as [|c s IH]; simpl; [done|].
  destruct (Ascii.eqb c sep); simpl; [by rewrite IH|].
  destruct (py_split sep s); simpl in *; lia.
Qed.

(** ** [generate_embeddings]: what the model is given *)

(** C8, as stated, fails: the text is stripped before the marker is put in
    front of it, so prefixing is not the only transformation.  For the text
    [" x"] the model is given ["search_document: x"], with one space after
    the colon, and not the marker followed by [" x"]. *)
Lemma prefixing_is_not_the_only_transformation :
  ¬ (∀ (texts : list string) (batch : Z),
       sentences (generate_embeddings_call texts batch)
       = (λ text, task_prefix ++ text) <$> texts).
Proof.
  intros H. specialize (H [" x"] 512). vm_compute in H. discriminate H.
Qed.

Section Generate.

Context {F : Type}.

(** C8, amended.  [generate_embeddings] consults the model at one call
    only, whose sentences are, one per input text and in the same order, the
    fixed marker ["search_document: "] followed by the stripped text: the
    text without its leading and trailing whitespace, everything in between
    kept as it is.  A text that neither starts nor ends with whitespace is
    passed as the marker followed by that text. *)
Theorem generate_embeddings_prefix (model : @sentence_transformer F)
    (texts : list string) (batch dimensions : Z) :
  generate_embeddings model texts batch dimensions
  = generate_embeddings
      (λ _, model {| sentences := (λ text, "search_document: " ++ strip text) <$> texts;
                     batch_size := batch;
                     show_progress_bar := true;
                     normalize_embeddings := true;
                     convert_to_numpy := true |})
      texts batch dimensions
  ∧ List.length (sentences (generate_embeddings_call texts batch))
    = List.length texts
  ∧ ∀ i text, texts !! i = Some text →
      sentences (generate_embeddings_call texts batch) !! i
      = Some (task_prefix ++ strip text)
      ∧ (∃ l r, text = l ++ strip text ++ r
                ∧ all_space l = true ∧ all_space r = true
                ∧ starts_with_space (strip text) = false
                ∧ ends_with_space (strip text) = false)
      ∧ (starts_with_space text = false → ends_with_space text = false →
         sentences (generate_embeddings_call texts batch) !! i
         = Some (task_prefix ++ text)).
Proof.
  split; [done|]. split.
  - simpl. unfold prefixed_texts. by rewrite length_fmap.
  - intros i text Hi.
    assert (sentences (generate_embeddings_call texts batch) !! i
            = Some (task_prefix ++ strip text)) as Hs.
    { simpl. unfold prefixed_texts. by rewrite list_lookup_fmap, Hi. }
    split; [done|]. split; [apply strip_spec|].
    intros H1 H2. rewrite Hs, strip_id by done. done.
Qed.

(** ** [generate_embeddings]: truncation *)

Lemma slice_stop_nonneg n d :
  0 ≤ d → d < Z.of_nat n → slice_stop n d = Z.to_nat d.
Proof.
  intros H0 Hd. unfold slice_stop.
  destruct (Z.ltb_spec d 0); lia.
Qed.

(** C7.  For a requested dimension [0 <= D] below the native dimension (the
    column count of the array the model returns), the result has [D]
    columns and as many rows as the model output, and each row is exactly
    the first [D] components of the model's row: nothing is computed on the
    components after the cut.  For a requested dimension equal to the
    native one, or above it, the model output is returned unchanged. *)
Theorem generate_embeddings_truncation (model : @sentence_transformer F)
    (texts : list string) (batch D : Z) :
  let out := model (generate_embeddings_call texts batch) in
  let res := generate_embeddings model texts batch D in
  (0 ≤ D → D < Z.of_nat (ncols out) →
     ncols res = Z.to_nat D
     ∧ List.length (rows res) = List.length (rows out)
     ∧ ∀ i v, rows out !! i = Some v →
              rows res !! i = Some (take (Z.to_nat D) v))
  ∧ (Z.of_nat (ncols out) ≤ D → res = out).
Proof.
  intros out res. subst res. unfold generate_embeddings. fold out. split.
  - intros H0 Hd.
    destruct (Z.ltb_spec D (Z.of_nat (ncols out))) as [_|?]; [|lia].
    unfold truncate_columns. simpl. rewrite slice_stop_nonneg by done.
    split; [done|]. split; [by rewrite length_fmap|].
    intros i v Hv. by rewrite list_lookup_fmap, Hv.
  - intros Hd.
    destruct (Z.ltb_spec D (Z.of_nat (ncols out))) as [?|_]; [lia|done].
Qed.

End Generate.

Lemma generate_embeddings_prefix_witness :
  sentences (generate_embeddings_call ["  height "; "bmi"] 512) !! 0%nat
  = Some (task_prefix ++ strip "  height ").
Proof.
  apply (proj1 (proj2 (proj2
    (generate_embeddings_prefix two_row_model ["  height "; "bmi"] 512 2))
    0%nat "  height " eq_refl)).
Defined.

(** Beyond the claim: a negative dimension is a Python slice from the
    end, so [-1] drops the last component of every row. *)
Example generate_embeddings_negative_dimension :
  rows (generate_embeddings two_row_model ["a"; "b"] 512 (-1))
  = [[1; 2]; [4; 5]].
Proof. reflexivity. Qed.

Lemma generate_embeddings_truncation_witness :
  rows (generate_embeddings two_row_model ["a"; "b"] 512 2)
  = [[1; 2]; [4; 5]]
  ∧ rows (generate_embeddings two_row_model ["a"; "b"] 512 2) !! 1%nat
    = Some (take (Z.to_nat 2) [4; 5; 6]).
Proof.
  split; [reflexivity|].
  apply (proj1 (generate_embeddings_truncation two_row_model ["a"; "b"] 512 2)); 
    [lia | simpl; lia | reflexivity].
Defined.

(** ** The local cache: key parsing *)

Lemma three_parts_delimiters key :
  three_parts key ↔ count_char "|" key = 2%nat.
Proof. unfold three_parts. rewrite py_split_length. lia. Qed.

Lemma parse_study_key_ok key :
  three_parts key →
  ∃ p0 p1 p2, py_split "|" key = [p0; p1; p2]
              ∧ parse_study_key key = Ok (p0, p1, p2).
Proof.
  unfold three_parts, parse_study_key. intros H.
  destruct (py_split "|" key) as [|p0 [|p1 [|p2 [|p3 ps]]]]; try done.
  eauto.
Qed.

Lemma parse_study_key_err key :
  ¬ three_parts key → parse_study_key key = Raise (invalid_study_key key).
Proof.
  unfold three_parts, parse_study_key, invalid_study_key. intros H.
  destruct (py_split "|" key) as [|p0 [|p1 [|p2 [|p3 ps]]]]; try done.
Qed.

Lemma mapM_result_cons {A B : Type} (f : A → result B) x l :
  mapM f (x :: l) = y ← f x; k ← mapM f l; mret (y :: k).
Proof. reflexivity. Qed.

(** The loop over [study_keys] when every key is well formed. *)
Lemma parse_study_keys_ok ks :
  Forall three_parts ks →
  ∃ keys, mapM parse_study_key ks = Ok keys
          ∧ Forall2 (λ k key, py_split "|" k = [key.1.1; key.1.2; key.2])
                    ks keys.
Proof.
  induction 1 as [|k ks Hk _ (keys & IH & Hall)].
  - exists []. split; [done | constructor].
  - destruct (parse_study_key_ok k Hk) as (p0 & p1 & p2 & Hs & Hp).
    exists ((p0, p1, p2) :: keys). rewrite mapM_result_cons, Hp. simpl.
    rewrite IH. split; [done|]. constructor; done.
Qed.

(** The loop over [study_keys] stops at the first malformed key. *)
Lemma parse_study_keys_err good k rest :
  Forall three_parts good → ¬ three_parts k →
  mapM parse_study_key (good ++ k :: rest) = Raise (invalid_study_key k).
Proof.
  intros Hg Hk. induction Hg as [|g good Hg _ IH].
  - simpl app. rewrite mapM_result_cons, parse_study_key_err by done. done.
  - destruct (parse_study_key_ok g Hg) as (p0 & p1 & p2 & _ & Hp).
    change ((g :: good) ++ k :: rest)%list with (g :: (good ++ k :: rest))%list.
    rewrite mapM_result_cons, Hp. simpl. rewrite IH. done.
Qed.

Lemma parse_study_keys_is_ok ks :
  is_ok (mapM parse_study_key ks) = true ↔ Forall three_parts ks.
Proof.
  induction ks as [|k ks IH]; [done|].
  rewrite mapM_result_cons, Forall_cons.
  destruct (decide (three_parts k)) as [Hk|Hk].
  - destruct (parse_study_key_ok k Hk) as (p0 & p1 & p2 & _ & ->). simpl.
    rewrite <- IH. destruct (mapM parse_study_key ks); simpl; tauto.
  - rewrite parse_study_key_err by done. simpl.
    split; [discriminate | tauto].
Qed.

Lemma zip3_projections (ks : list composite_key) :
  zip3 ((λ k, k.1.1) <$> ks) ((λ k, k.1.2) <$> ks) ((λ k, k.2) <$> ks) = ks.
Proof.
  induction ks as [|[[a b] c] ks IH]; [done|].
  rewrite !fmap_cons. simpl. f_equal. exact IH.
Qed.

(** ** The local cache: loading and saving *)

Section Cache.

Context {F : Type}.

Implicit Types (data : gmap string (@npy F)) (E : @npy F).
Implicit Types (fs : gmap string (gmap string (@npy F))).

Lemma contains_Some data name v : data !! name = Some v → contains data name = true.
Proof. intros H. unfold contains. rewrite H. done. Qed.

Lemma contains_None data name : data !! name = None → contains data name = false.
Proof. intros H. unfold contains. rewrite H. done. Qed.

Lemma getitem_Some data name v : data !! name = Some v → getitem data name = Ok v.
Proof. intros H. unfold getitem. rewrite H. done. Qed.

(** Loading, once the file, the vectors and the dimension scalar are
    there: the keys are rebuilt, the array is handed back as read. *)
Lemma load_embeddings_from_file_keys fs filepath data E d :
  fs !! filepath = Some data →
  data !! "embeddings" = Some E →
  data !! "dimensions" = Some (NpyScalar d) →
  load_embeddings_from_file fs filepath
  = keys ← load_composite_keys data; mret (keys, E).
Proof.
  intros Hf He Hd. unfold load_embeddings_from_file.
  rewrite Hf, (getitem_Some _ _ _ He), (getitem_Some _ _ _ Hd). done.
Qed.

Lemma load_composite_keys_legacy data ks :
  data !! "study_keys" = Some (NpyObjects ks) →
  load_composite_keys data = mapM parse_study_key ks.
Proof.
  intros H. unfold load_composite_keys.
  rewrite (contains_Some _ _ _ H), (getitem_Some _ _ _ H). done.
Qed.

Lemma load_composite_keys_current data a s r :
  data !! "study_keys" = None →
  data !! "study_accessions" = Some (NpyObjects a) →
  data !! "snps" = Some (NpyObjects s) →
  data !! "risk_alleles" = Some (NpyObjects r) →
  load_composite_keys data = Ok (zip3 a s r).
Proof.
  intros Hk Ha Hs Hr. unfold load_composite_keys.
  rewrite (contains_None _ _ Hk), (contains_Some _ _ _ Ha).
  rewrite (getitem_Some _ _ _ Ha), (getitem_Some _ _ _ Hs),
    (getitem_Some _ _ _ Hr). done.
Qed.

Lemma load_composite_keys_insert_dimensions data v :
  load_composite_keys (<["dimensions" := v]> data) = load_composite_keys data.
Proof.
  unfold load_composite_keys, contains, getitem.
  rewrite !lookup_insert_ne by done. done.
Qed.

(** C4, amended.  With the vectors and the dimension scalar present, the
    loader looks for the legacy marker [study_keys] first and, when it is
    there, parses the delimited key strings, whatever else the archive
    holds; it falls back to the current-schema marker [study_accessions]
    only when [study_keys] is absent; with neither it fails with the
    invalid-file-format error. *)
Theorem load_detection_order fs filepath data E d :
  fs !! filepath = Some data →
  data !! "embeddings" = Some E →
  data !! "dimensions" = Some (NpyScalar d) →
  (∀ ks, data !! "study_keys" = Some (NpyObjects ks) →
     load_embeddings_from_file fs filepath
     = keys ← mapM parse_study_key ks; mret (keys, E))
  ∧ (∀ a s r,
       data !! "study_keys" = None →
       data !! "study_accessions" = Some (NpyObjects a) →
       data !! "snps" = Some (NpyObjects s) →
       data !! "risk_alleles" = Some (NpyObjects r) →
       load_embeddings_from_file fs filepath = Ok (zip3 a s r, E))
  ∧ (data !! "study_keys" = None →
     data !! "study_accessions" = None →
     load_embeddings_from_file fs filepath
     = Raise (ValueError
         "Invalid file format: missing 'study_keys' or 'study_accessions' key")).
Proof.
  intros Hf He Hd.
  rewrite (load_embeddings_from_file_keys _ _ _ _ _ Hf He Hd).
  split; [|split].
  - intros ks Hk. by rewrite (load_composite_keys_legacy _ _ Hk).
  - intros a s r Hk Ha Hs Hr.
    by rewrite (load_composite_keys_current _ _ _ _ Hk Ha Hs Hr).
  - intros Hk Ha. unfold load_composite_keys.
    rewrite (contains_None _ _ Hk), (contains_None _ _ Ha). done.
Qed.

(** C6.  On a legacy archive the loader succeeds exactly when every key
    string splits on [|] into three parts, that is, has exactly two
    delimiters; it then returns, in order, the triple of the parts of each
    key; otherwise the result is the format error carrying the text of the
    first offending key and its number of parts, and, being an error, it
    carries no key list. *)
Theorem load_legacy_keys fs filepath data ks E d :
  fs !! filepath = Some data →
  data !! "study_keys" = Some (NpyObjects ks) →
  data !! "embeddings" = Some E →
  data !! "dimensions" = Some (NpyScalar d) →
  (is_ok (load_embeddings_from_file fs filepath) = true
   ↔ Forall three_parts ks)
  ∧ (∀ k, three_parts k ↔ count_char "|" k = 2%nat)
  ∧ (Forall three_parts ks →
     ∃ keys,
       load_embeddings_from_file fs filepath = Ok (keys, E)
       ∧ Forall2 (λ k key, py_split "|" k = [key.1.1; key.1.2; key.2]) ks keys)
  ∧ (∀ good k rest,
       ks = (good ++ k :: rest)%list → Forall three_parts good →
       ¬ three_parts k →
       load_embeddings_from_file fs filepath
       = Raise (ValueError ("Invalid study_key format: " ++ k ++
                            " (expected 3 parts, got " ++
                            pretty (List.length (py_split "|" k)) ++ ")"))).
Proof.
  intros Hf Hk He Hd.
  rewrite (load_embeddings_from_file_keys _ _ _ _ _ Hf He Hd).
  rewrite (load_composite_keys_legacy _ _ Hk).
  split; [|split; [|split]].
  - rewrite <- parse_study_keys_is_ok.
    destruct (mapM parse_study_key ks); done.
  - apply three_parts_delimiters.
  - intros Hall. destruct (parse_study_keys_ok ks Hall) as (keys & -> & H2).
    exists keys. done.
  - intros good k rest -> Hg Hn.
    rewrite parse_study_keys_err by done. done.
Qed.

(** C10.  Once the keys are rebuilt, the loader returns the [embeddings]
    member exactly as it is in the archive, whatever the [dimensions]
    scalar says: no relation between the scalar, the member's shape and the
    number of keys is assumed, and replacing the scalar by any other leaves
    the result as it is. *)
Theorem load_ignores_dimensions fs filepath data E d keys :
  fs !! filepath = Some data →
  data !! "embeddings" = Some E →
  data !! "dimensions" = Some (NpyScalar d) →
  load_composite_keys data = Ok keys →
  load_embeddings_from_file fs filepath = Ok (keys, E)
  ∧ ∀ d', load_embeddings_from_file
            (<[filepath := <["dimensions" := NpyScalar d']> data]> fs) filepath
          = Ok (keys, E).
Proof.
  intros Hf He Hd Hk. split.
  - rewrite (load_embeddings_from_file_keys _ _ _ _ _ Hf He Hd), Hk. done.
  - intros d'.
    rewrite (load_embeddings_from_file_keys _ _
               (<["dimensions" := NpyScalar d']> data) E d').
    + rewrite load_composite_keys_insert_dimensions, Hk. done.
    + apply lookup_insert_eq.
    + rewrite lookup_insert_ne by done. done.
    + apply lookup_insert_eq.
Qed.

(** C5.  Whatever the file system, the path, the keys and the vectors,
    loading the file that [save_embeddings_to_file] wrote returns the very
    list of key triples that was saved, in the same order, and the very
    array that was saved: the same set of keys, and vectors equal
    component by component.  The file written is [npz_name filepath]; when
    the path already ends in [.npz] that is the path itself and the save
    returns normally. *)
Theorem save_load_round_trip fs (filepath : string)
    (composite_keys : list composite_key) (embeddings : @ndarray F) :
  let saved := save_embeddings_to_file fs filepath composite_keys embeddings in
  load_embeddings_from_file saved.1 (npz_name filepath)
  = Ok (composite_keys, NpyFloats embeddings)
  ∧ (ends_with filepath ".npz" = true →
     saved.2 = Ok tt
     ∧ load_embeddings_from_file saved.1 filepath
       = Ok (composite_keys, NpyFloats embeddings)).
Proof.
  intros saved.
  assert (load_embeddings_from_file saved.1 (npz_name filepath)
          = Ok (composite_keys, NpyFloats embeddings)) as Hload.
  { subst saved. unfold save_embeddings_to_file. simpl.
    rewrite (load_embeddings_from_file_keys _ _
               (archive_of composite_keys embeddings) (NpyFloats embeddings)
               (Z.of_nat (ncols embeddings))).
    - rewrite (load_composite_keys_current _
                 ((λ k, k.1.1) <$> composite_keys)
                 ((λ k, k.1.2) <$> composite_keys)
                 ((λ k, k.2) <$> composite_keys)) by done.
      rewrite zip3_projections. done.
    - apply lookup_insert_eq.
    - done.
    - done. }
  split; [done|]. intros Hext.
  assert (npz_name filepath = filepath) as Hn by (unfold npz_name; by rewrite Hext).
  rewrite Hn in Hload. split; [|done].
  subst saved. unfold save_embeddings_to_file. simpl.
  rewrite Hn, lookup_insert_eq. done.
Qed.

End Cache.

(** ** The local cache on concrete archives *)

(** C4, as stated, fails: for an archive with both sets of markers the
    legacy member is the one used, not the three parallel arrays. *)
Lemma load_uses_legacy_when_both_present :
  ¬ (∀ (fs : gmap string (gmap string (@npy Z))) filepath data ks a s r E d,
       fs !! filepath = Some data →
       data !! "study_keys" = Some (NpyObjects ks) →
       data !! "study_accessions" = Some (NpyObjects a) →
       data !! "snps" = Some (NpyObjects s) →
       data !! "risk_alleles" = Some (NpyObjects r) →
       data !! "embeddings" = Some E →
       data !! "dimensions" = Some (NpyScalar d) →
       load_embeddings_from_file fs filepath = Ok (zip3 a s r, E)).
Proof.
  intros H.
  specialize (H both_markers_fs "cache.npz"
                both_markers_archive ["LEGACY|rs1|A"] ["CURRENT"] ["rs2"] ["G"]
                (NpyFloats one_row) 2).
  do 7 (lapply H; [clear H; intros H | by_compute]).
  vm_compute in H. discriminate H.
Qed.

Lemma load_detection_order_witness :
  load_embeddings_from_file both_markers_fs "cache.npz"
  = Ok ([("LEGACY", "rs1", "A")], NpyFloats one_row).
Proof.
  apply (proj1 (load_detection_order
                  both_markers_fs "cache.npz"
                  both_markers_archive (NpyFloats one_row) 2
                  ltac:(by_compute) ltac:(by_compute) ltac:(by_compute))
               ["LEGACY|rs1|A"] ltac:(by_compute)).
Defined.

Lemma load_legacy_keys_witness :
  load_embeddings_from_file legacy_fs "old.npz"
  = Raise (ValueError
      "Invalid study_key format: GCST0002|rs456 (expected 3 parts, got 2)").
Proof.
  apply (proj2 (proj2 (proj2 (load_legacy_keys
                  legacy_fs "old.npz" legacy_archive
                  ["GCST0001|rs123|A"; "GCST0002|rs456"] (NpyFloats one_row) 2
                  ltac:(by_compute) ltac:(by_compute) ltac:(by_compute)
                  ltac:(by_compute))))
               ["GCST0001|rs123|A"] "GCST0002|rs456" []).
  - reflexivity.
  - repeat constructor.
  - vm_compute. discriminate.
Defined.

Lemma load_ignores_dimensions_witness :
  load_embeddings_from_file mismatched_fs "cache.npz"
  = Ok ([("GCST0001", "rs123", "A"); ("GCST0002", "rs456", "C")],
        NpyFloats one_row).
Proof.
  apply (proj1 (load_ignores_dimensions
                  mismatched_fs "cache.npz"
                  mismatched_archive (NpyFloats one_row) 999
                  [("GCST0001", "rs123", "A"); ("GCST0002", "rs456", "C")]
                  ltac:(by_compute) ltac:(by_compute) ltac:(by_compute)
                  ltac:(by_compute))).
Defined.

Lemma save_load_round_trip_witness :
  (save_embeddings_to_file ∅ "backup.npz" [("GCST0001", "rs123", "A")] one_row).2
  = Ok tt
  ∧ load_embeddings_from_file
      (save_embeddings_to_file ∅ "backup.npz" [("GCST0001", "rs123", "A")] one_row).1
      "backup.npz"
    = Ok ([("GCST0001", "rs123", "A")], NpyFloats one_row).
Proof.
  apply (proj2 (save_load_round_trip ∅ "backup.npz"
                  [("GCST0001", "rs123", "A")] one_row)).
  reflexivity.
Defined.

(** Beyond the claim: for a path without the extension the archive is
    written under the extended name, and the save then raises. *)
Example save_without_extension :
  (save_embeddings_to_file ∅ "backup" [("GCST0001", "rs123", "A")] one_row).2
  = Raise (FileNotFoundError "backup").
Proof. reflexivity. Qed.

(** The example of the specification. *)
Example parse_study_key_example :
  parse_study_key "GCST0001|rs123|A" = Ok ("GCST0001", "rs123", "A").
Proof. reflexivity. Qed.

(** ** [store_embeddings]: the chunked loops *)

(** Slicing a list at the starts [0, st, 2*st, ...] covers it, in order. *)
Lemma chunks_cover {A : Type} (st : nat) (l : list A) (m : nat) :
  (List.length l ≤ m * st)%nat →
  List.concat ((λ j, take st (drop (j * st) l)) <$> seq 0 m) = l.
Proof.
  revert l. induction m as [|m IH]; intros l Hl.
  - destruct l; [done | simpl in Hl; lia].
  - rewrite <- cons_seq, <- fmap_S_seq, fmap_cons, <- list_fmap_compose.
    simpl List.concat. rewrite drop_0.
    rewrite (list_fmap_ext _ (λ j, take st (drop (j * st) (drop st l))) (seq 0 m)).
    + rewrite IH; [apply take_drop|]. rewrite length_drop. lia.
    + intros i j _. simpl. rewrite drop_drop. done.
Qed.

Lemma chunk_count_covers (n st : nat) :
  (0 < st)%nat → (n ≤ (n + st - 1) / st * st)%nat.
Proof.
  intros Hst.
  pose proof (Nat.div_mod (n + st - 1) st ltac:(lia)) as Hdm.
  pose proof (Nat.mod_upper_bound (n + st - 1) st ltac:(lia)) as Hmod.
  nia.
Qed.

(** For a positive step, the slices at the starts of [py_range0] cover any
    list that is no longer than the stop. *)
Lemma py_range0_slices {A : Type} (l : list A) (stop : nat) (step : Z) :
  0 < step → (List.length l ≤ stop)%nat →
  ∃ starts, py_range0 stop step = Ok starts
            ∧ List.concat ((λ i, py_slice l i step) <$> starts) = l.
Proof.
  intros Hstep Hlen. unfold py_range0.
  destruct (Z.eqb_spec step 0) as [?|_]; [lia|].
  destruct (Z.ltb_spec step 0) as [?|_]; [lia|].
  eexists. split; [done|].
  rewrite <- list_fmap_compose. unfold py_slice.
  apply (chunks_cover (Z.to_nat step) l).
  pose proof (chunk_count_covers stop (Z.to_nat step) ltac:(lia)). lia.
Qed.

Lemma foldl_concat {A B : Type} (f : A → B → A) (a : A) (ls : list (list B)) :
  foldl f a (List.concat ls) = foldl (λ a l, foldl f a l) a ls.
Proof.
  revert a. induction ls as [|l ls IH]; intros a; [done|].
  simpl. rewrite foldl_app. apply IH.
Qed.

Lemma foldl_step {A B : Type} (f : A → B → A) (a : A) (b : B) (l : list B) :
  foldl f a (b :: l) = foldl f (f a b) l.
Proof. reflexivity. Qed.

Lemma foldl_pointwise {A B : Type} (f g : A → B → A) (a : A) (l : list B) :
  (∀ a b, f a b = g a b) → foldl f a l = foldl g a l.
Proof.
  intros Hfg. revert a. induction l as [|b l IH]; intros a; [done|].
  simpl. rewrite Hfg. apply IH.
Qed.

Section Store.

Context {F : Type}.
Variable float_repr : F → string.
Variable clock : nat → timestamp.

Lemma batch_data_slice (keys : list composite_key) (vectors : list (list F)) i n :
  batch_data float_repr (py_slice keys i n) (py_slice vectors i n)
  = py_slice (batch_data float_repr keys vectors) i n.
Proof.
  unfold batch_data, py_slice.
  rewrite <- zip_with_take, <- zip_with_drop, fmap_take, fmap_drop. done.
Qed.

Lemma batch_data_length (keys : list composite_key) (vectors : list (list F)) :
  (List.length (batch_data float_repr keys vectors) ≤ List.length keys)%nat.
Proof. unfold batch_data. rewrite length_fmap, length_zip. apply Nat.le_min_l. Qed.

(** The SQLite branch with a positive batch size runs the upsert once for
    every (key, vector) pair, in order. *)
Lemma store_embeddings_sqlite conn keys embeddings batch :
  0 < batch →
  store_embeddings float_repr clock conn Sqlite keys embeddings batch
  = Ok (foldl (execute_one clock) conn
              (batch_data float_repr keys (rows embeddings))).
Proof.
  intros Hb. unfold store_embeddings.
  destruct (py_range0_slices (batch_data float_repr keys (rows embeddings))
              (List.length keys) batch Hb (batch_data_length _ _))
    as (starts & -> & Hcover).
  simpl. f_equal. rewrite <- Hcover.
  rewrite foldl_concat, foldl_fmap. unfold executemany.
  apply foldl_pointwise. intros c i. by rewrite batch_data_slice.
Qed.

(** With a negative batch size the SQLite loop has no iteration, and with
    the batch size 0 [range] raises before anything is written. *)
Lemma store_embeddings_sqlite_nonpositive conn keys embeddings batch :
  batch ≤ 0 →
  (batch < 0 →
   store_embeddings float_repr clock conn Sqlite keys embeddings batch = Ok conn)
  ∧ (batch = 0 →
     is_ok (store_embeddings float_repr clock conn Sqlite keys embeddings batch)
     = false).
Proof.
  intros _. unfold store_embeddings, py_range0. split.
  - intros Hb. destruct (Z.eqb_spec batch 0) as [?|_]; [lia|].
    destruct (Z.ltb_spec batch 0) as [_|?]; [done|lia].
  - intros ->. done.
Qed.

Lemma foldl_execute_values now conn
    (chunks : list (list (string * string * string * string))) :
  foldl (execute_values now) conn chunks
  = {| gwas_catalog := gwas_catalog conn;
       study_embeddings :=
         foldl (insert_do_nothing now) (study_embeddings conn) (List.concat chunks);
       statements := (List.length chunks + statements conn)%nat |}.
Proof.
  revert conn. induction chunks as [|ch chunks IH]; intros conn.
  - by destruct conn.
  - simpl foldl. rewrite IH. unfold execute_values. simpl.
    rewrite foldl_app. f_equal. lia.
Qed.

(** The PostgreSQL branch inserts, with the conflict clause, every (key,
    vector) pair in order, all at the time of the transaction. *)
Lemma store_embeddings_postgres conn keys embeddings batch :
  ∃ n,
    store_embeddings float_repr clock conn Postgres keys embeddings batch
    = Ok {| gwas_catalog := gwas_catalog conn;
            study_embeddings :=
              foldl (insert_do_nothing (clock (statements conn)))
                    (study_embeddings conn)
                    (data_tuples float_repr keys embeddings);
            statements := n |}.
Proof.
  unfold store_embeddings.
  destruct (py_range0_slices (data_tuples float_repr keys embeddings)
              (List.length (data_tuples float_repr keys embeddings))
              chunk_size ltac:(done) ltac:(done))
    as (starts & -> & Hcover).
  eexists. simpl. f_equal.
  rewrite <- (foldl_fmap (execute_values _) conn starts
                (λ i, py_slice (data_tuples float_repr keys embeddings) i chunk_size)).
  rewrite foldl_execute_values, Hcover. done.
Qed.

End Store.

(** ** [store_embeddings]: one statement on the table *)

Implicit Types (tbl : list embedding_row) (k : composite_key).
Implicit Types (now : timestamp).

Lemma se_key_do_update_set now k e r : se_key (do_update_set now k e r) = se_key r.
Proof. unfold do_update_set. by case_decide. Qed.

Lemma keys_do_update_set now k e tbl :
  se_key <$> (do_update_set now k e <$> tbl) = se_key <$> tbl.
Proof.
  rewrite <- list_fmap_compose. apply list_fmap_ext.
  intros i r _. apply se_key_do_update_set.
Qed.

Lemma insert_do_nothing_keys now tbl t :
  se_key <$> insert_do_nothing now tbl t
  = if decide (tuple_key t ∈ se_key <$> tbl) then se_key <$> tbl
    else ((se_key <$> tbl) ++ [tuple_key t])%list.
Proof.
  destruct t as [[[a b] c] e]. unfold insert_do_nothing, tuple_key. simpl.
  destruct (decide _); [done|]. by rewrite fmap_app.
Qed.

Lemma insert_do_update_keys now tbl t :
  se_key <$> insert_do_update now tbl t
  = if decide (param_key t ∈ se_key <$> tbl) then se_key <$> tbl
    else ((se_key <$> tbl) ++ [param_key t])%list.
Proof.
  destruct t as [[[[a b] c] e] e']. unfold insert_do_update, param_key. simpl.
  destruct (decide _); [apply keys_do_update_set|]. by rewrite fmap_app.
Qed.

Lemma embeddings_of_absent k tbl :
  k ∉ se_key <$> tbl → embeddings_of k tbl = [].
Proof.
  unfold embeddings_of. induction tbl as [|r tbl IH]; [done|].
  rewrite fmap_cons, not_elem_of_cons. intros [Hr Hk].
  rewrite filter_cons, decide_False by done. by apply IH.
Qed.

Lemma embeddings_of_app k tbl tbl' :
  embeddings_of k (tbl ++ tbl') = (embeddings_of k tbl ++ embeddings_of k tbl')%list.
Proof. unfold embeddings_of. by rewrite filter_app, fmap_app. Qed.

Lemma embeddings_of_new_row k a b c e now :
  embeddings_of k [mk_embedding_row a b c e now now]
  = if decide ((a, b, c) = k) then [e] else [].
Proof.
  unfold embeddings_of. rewrite filter_cons. unfold se_key at 1. simpl.
  destruct (decide _); done.
Qed.

Lemma embeddings_of_update_other now k k' e tbl :
  k' ≠ k →
  embeddings_of k (do_update_set now k' e <$> tbl) = embeddings_of k tbl.
Proof.
  intros Hne. unfold embeddings_of. induction tbl as [|r tbl IH]; [done|].
  rewrite fmap_cons, !filter_cons, se_key_do_update_set.
  destruct (decide _) as [Hr|Hr]; [|done].
  rewrite !fmap_cons, IH. f_equal.
  unfold do_update_set. rewrite decide_False by congruence. done.
Qed.

Lemma embeddings_of_update_same now k e tbl :
  embeddings_of k (do_update_set now k e <$> tbl)
  = (λ _, e) <$> embeddings_of k tbl.
Proof.
  unfold embeddings_of. induction tbl as [|r tbl IH]; [done|].
  rewrite fmap_cons, !filter_cons, se_key_do_update_set.
  destruct (decide _) as [Hr|Hr]; [|done].
  rewrite !fmap_cons, IH. f_equal.
  unfold do_update_set. rewrite decide_True by done. done.
Qed.

(** DO NOTHING: a row of another key, or of a key that is present, leaves
    the rows of [k] as they are; a row of an absent key adds it. *)
Lemma insert_do_nothing_other now tbl t k :
  tuple_key t ≠ k →
  embeddings_of k (insert_do_nothing now tbl t) = embeddings_of k tbl.
Proof.
  destruct t as [[[a b] c] e]. unfold insert_do_nothing, tuple_key. simpl.
  intros Hne. destruct (decide _); [done|].
  rewrite embeddings_of_app, embeddings_of_new_row, decide_False by done.
  apply app_nil_r.
Qed.

Lemma insert_do_nothing_present now tbl t k :
  k ∈ se_key <$> tbl →
  embeddings_of k (insert_do_nothing now tbl t) = embeddings_of k tbl.
Proof.
  intros Hk. destruct (decide (tuple_key t = k)) as [<-|Hne].
  - destruct t as [[[a b] c] e]. unfold insert_do_nothing, tuple_key in *.
    simpl in *. by rewrite decide_True.
  - by apply insert_do_nothing_other.
Qed.

Lemma insert_do_nothing_new now tbl a b c e :
  (a, b, c) ∉ se_key <$> tbl →
  embeddings_of (a, b, c) (insert_do_nothing now tbl (a, b, c, e)) = [e].
Proof.
  intros Hk. unfold insert_do_nothing. rewrite decide_False by done.
  rewrite embeddings_of_app, embeddings_of_absent by done.
  rewrite embeddings_of_new_row, decide_True by done. done.
Qed.

(** DO UPDATE: a row of another key leaves the rows of [k] as they are; a
    row of [k] overwrites the vector of every row of [k], or adds the row
    when there is none. *)
Lemma insert_do_update_other now tbl t k :
  param_key t ≠ k →
  embeddings_of k (insert_do_update now tbl t) = embeddings_of k tbl.
Proof.
  destruct t as [[[[a b] c] e] e']. unfold insert_do_update, param_key. simpl.
  intros Hne. destruct (decide _).
  - by apply embeddings_of_update_other.
  - rewrite embeddings_of_app, embeddings_of_new_row, decide_False by done.
    apply app_nil_r.
Qed.

Lemma insert_do_update_same now tbl a b c e e' :
  embeddings_of (a, b, c) (insert_do_update now tbl (a, b, c, e, e'))
  = if decide ((a, b, c) ∈ se_key <$> tbl)
    then (λ _, e') <$> embeddings_of (a, b, c) tbl
    else [e].
Proof.
  unfold insert_do_update. destruct (decide _) as [Hk|Hk].
  - apply embeddings_of_update_same.
  - rewrite embeddings_of_app, embeddings_of_absent by done.
    rewrite embeddings_of_new_row, decide_True by done. done.
Qed.

(** ** [store_embeddings]: a whole batch on the table *)

Lemma elem_of_keys_step (l : list composite_key) k k' :
  k ∈ (if decide (k' ∈ l) then l else (l ++ [k'])%list) ↔ k ∈ l ∨ k = k'.
Proof.
  destruct (decide (k' ∈ l)) as [Hin|Hin].
  - split; [tauto|]. intros [?| ->]; done.
  - rewrite elem_of_app, list_elem_of_singleton. done.
Qed.

Lemma NoDup_keys_step (l : list composite_key) k' :
  NoDup l → NoDup (if decide (k' ∈ l) then l else (l ++ [k'])%list).
Proof.
  intros Hl. destruct (decide (k' ∈ l)) as [Hin|Hin]; [done|].
  apply NoDup_app. split; [done|]. split; [|apply NoDup_singleton].
  intros x Hx Hx'. apply list_elem_of_singleton in Hx'. congruence.
Qed.

Lemma foldl_insert_do_nothing_keys now tbl ts k :
  k ∈ se_key <$> foldl (insert_do_nothing now) tbl ts
  ↔ k ∈ se_key <$> tbl ∨ k ∈ tuple_key <$> ts.
Proof.
  revert tbl. induction ts as [|t ts IH]; intros tbl.
  - simpl. rewrite elem_of_nil. tauto.
  - rewrite fmap_cons, elem_of_cons. simpl foldl.
    rewrite IH, insert_do_nothing_keys, elem_of_keys_step. tauto.
Qed.

Lemma foldl_insert_do_nothing_NoDup now tbl ts :
  NoDup (se_key <$> tbl) →
  NoDup (se_key <$> foldl (insert_do_nothing now) tbl ts).
Proof.
  revert tbl. induction ts as [|t ts IH]; intros tbl Hn; [done|].
  simpl. apply IH. rewrite insert_do_nothing_keys. by apply NoDup_keys_step.
Qed.

Lemma foldl_insert_do_nothing_present now tbl ts k :
  k ∈ se_key <$> tbl →
  embeddings_of k (foldl (insert_do_nothing now) tbl ts) = embeddings_of k tbl.
Proof.
  revert tbl. induction ts as [|t ts IH]; intros tbl Hk; [done|].
  simpl. rewrite IH.
  - by apply insert_do_nothing_present.
  - rewrite insert_do_nothing_keys, elem_of_keys_step. by left.
Qed.

(** DO NOTHING over a batch in which the key occurs: the vector already in
    the table stays, and for an absent key the first one of the batch is
    kept. *)
Lemma foldl_insert_do_nothing_batch now tbl pre post a b c e :
  (a, b, c) ∉ tuple_key <$> pre →
  embeddings_of (a, b, c)
    (foldl (insert_do_nothing now) tbl (pre ++ (a, b, c, e) :: post))
  = if decide ((a, b, c) ∈ se_key <$> tbl)
    then embeddings_of (a, b, c) tbl else [e].
Proof.
  intros Hpre. destruct (decide _) as [Hk|Hk].
  - by apply foldl_insert_do_nothing_present.
  - rewrite foldl_app, foldl_step, foldl_insert_do_nothing_present.
    + apply insert_do_nothing_new.
      rewrite foldl_insert_do_nothing_keys. tauto.
    + rewrite insert_do_nothing_keys, elem_of_keys_step. by right.
Qed.

Section StoreBatch.

Context {F : Type}.
Variable float_repr : F → string.
Variable clock : nat → timestamp.

Implicit Types (conn : connection).
Implicit Types (kvs : list (composite_key * list F)).

Lemma execute_one_table conn t :
  study_embeddings (execute_one clock conn t)
  = insert_do_update (clock (statements conn)) (study_embeddings conn) t.
Proof. done. Qed.

Lemma foldl_execute_one_catalog conn ts :
  gwas_catalog (foldl (execute_one clock) conn ts) = gwas_catalog conn.
Proof.
  revert conn. induction ts as [|t ts IH]; intros conn; [done|].
  simpl. by rewrite IH.
Qed.

Lemma foldl_execute_one_keys conn ts k :
  k ∈ se_key <$> study_embeddings (foldl (execute_one clock) conn ts)
  ↔ k ∈ se_key <$> study_embeddings conn ∨ k ∈ param_key <$> ts.
Proof.
  revert conn. induction ts as [|t ts IH]; intros conn.
  - simpl. rewrite elem_of_nil. tauto.
  - rewrite fmap_cons, elem_of_cons. simpl foldl. rewrite IH.
    unfold execute_one at 1. simpl study_embeddings.
    rewrite insert_do_update_keys, elem_of_keys_step. tauto.
Qed.

Lemma foldl_execute_one_NoDup conn ts :
  NoDup (se_key <$> study_embeddings conn) →
  NoDup (se_key <$> study_embeddings (foldl (execute_one clock) conn ts)).
Proof.
  revert conn. induction ts as [|t ts IH]; intros conn Hn; [done|].
  simpl. apply IH. simpl. rewrite insert_do_update_keys.
  by apply NoDup_keys_step.
Qed.

Lemma foldl_execute_one_other conn ts k :
  k ∉ param_key <$> ts →
  embeddings_of k (study_embeddings (foldl (execute_one clock) conn ts))
  = embeddings_of k (study_embeddings conn).
Proof.
  revert conn. induction ts as [|t ts IH]; intros conn Hk; [done|].
  rewrite fmap_cons, not_elem_of_cons in Hk. destruct Hk as [Ht Hk].
  simpl. rewrite IH by done. simpl. by apply insert_do_update_other.
Qed.

(** DO UPDATE over a batch in which the key occurs once: the vector of the
    batch replaces the one in the table. *)
Lemma foldl_execute_one_batch conn pre post a b c e e' :
  (a, b, c) ∉ param_key <$> pre →
  (a, b, c) ∉ param_key <$> post →
  embeddings_of (a, b, c)
    (study_embeddings
       (foldl (execute_one clock) conn (pre ++ (a, b, c, e, e') :: post)))
  = if decide ((a, b, c) ∈ se_key <$> study_embeddings conn)
    then (λ _, e') <$> embeddings_of (a, b, c) (study_embeddings conn)
    else [e].
Proof.
  intros Hpre Hpost. rewrite foldl_app, foldl_step.
  rewrite foldl_execute_one_other by done.
  rewrite execute_one_table, insert_do_update_same.
  rewrite (foldl_execute_one_other conn pre) by done.
  destruct (decide ((a, b, c) ∈ se_key <$> study_embeddings conn)) as [Hk|Hk].
  - rewrite decide_True; [done|]. rewrite foldl_execute_one_keys. by left.
  - rewrite decide_False; [done|]. rewrite foldl_execute_one_keys. tauto.
Qed.

(** The rows the two branches build from a list of (key, vector) pairs. *)
Lemma data_tuples_pairs kvs d :
  data_tuples float_repr kvs.*1 {| ncols := d; rows := kvs.*2 |}
  = (λ p, (p.1.1.1, p.1.1.2, p.1.2, json_dumps float_repr "," p.2)) <$> kvs.
Proof.
  unfold data_tuples. simpl. rewrite zip_fst_snd.
  apply list_fmap_ext. intros i [[[a b] c] v] _. done.
Qed.

Lemma batch_data_pairs kvs :
  batch_data float_repr kvs.*1 kvs.*2
  = (λ p, (p.1.1.1, p.1.1.2, p.1.2, json_dumps float_repr ", " p.2,
           json_dumps float_repr ", " p.2)) <$> kvs.
Proof.
  unfold batch_data. rewrite zip_fst_snd.
  apply list_fmap_ext. intros i [[[a b] c] v] _. done.
Qed.

Lemma tuple_key_pairs kvs (f : list F → string) :
  tuple_key <$> ((λ p, (p.1.1.1, p.1.1.2, p.1.2, f p.2)) <$> kvs) = kvs.*1.
Proof.
  rewrite <- list_fmap_compose. apply list_fmap_ext.
  intros i [[[a b] c] v] _. done.
Qed.

Lemma param_key_pairs kvs (f g : list F → string) :
  param_key <$> ((λ p, (p.1.1.1, p.1.1.2, p.1.2, f p.2, g p.2)) <$> kvs)
  = kvs.*1.
Proof.
  rewrite <- list_fmap_compose. apply list_fmap_ext.
  intros i [[[a b] c] v] _. done.
Qed.

End StoreBatch.

(** ** [store_embeddings]: the two conflict policies *)

Section ConflictPolicy.

Context {F : Type}.
Variable float_repr : F → string.
Variable clock : nat → timestamp.

Lemma store_pairs_postgres conn pre post a b c (v : list F) d batch :
  (a, b, c) ∉ pre.*1 →
  ∃ conn',
    store_pairs float_repr clock conn Postgres
      (pre ++ ((a, b, c), v) :: post) d batch = Ok conn'
    ∧ embeddings_of (a, b, c) (study_embeddings conn')
      = if decide ((a, b, c) ∈ se_key <$> study_embeddings conn)
        then embeddings_of (a, b, c) (study_embeddings conn)
        else [json_dumps float_repr "," v].
Proof.
  intros Hpre. unfold store_pairs.
  edestruct (store_embeddings_postgres float_repr clock conn) as [n Hn].
  rewrite Hn. eexists. split; [done|]. simpl study_embeddings.
  rewrite data_tuples_pairs, fmap_app, fmap_cons. simpl fst. simpl snd.
  apply foldl_insert_do_nothing_batch. by rewrite tuple_key_pairs.
Qed.

Lemma store_pairs_sqlite conn pre post a b c (v : list F) d batch :
  0 < batch →
  (a, b, c) ∉ pre.*1 → (a, b, c) ∉ post.*1 →
  ∃ conn',
    store_pairs float_repr clock conn Sqlite
      (pre ++ ((a, b, c), v) :: post) d batch = Ok conn'
    ∧ embeddings_of (a, b, c) (study_embeddings conn')
      = if decide ((a, b, c) ∈ se_key <$> study_embeddings conn)
        then (λ _, json_dumps float_repr ", " v)
               <$> embeddings_of (a, b, c) (study_embeddings conn)
        else [json_dumps float_repr ", " v].
Proof.
  intros Hb Hpre Hpost. unfold store_pairs.
  rewrite store_embeddings_sqlite by done.
  eexists. split; [done|]. simpl rows.
  rewrite batch_data_pairs, fmap_app, fmap_cons. simpl fst. simpl snd.
  apply foldl_execute_one_batch; by rewrite param_key_pairs.
Qed.

Lemma embeddings_of_present k (tbl : list embedding_row) e :
  embeddings_of k tbl = [e] → k ∈ se_key <$> tbl.
Proof.
  intros He. destruct (decide (k ∈ se_key <$> tbl)) as [|Hn]; [done|].
  rewrite embeddings_of_absent in He by done. done.
Qed.

(** C1.  Take a key with no row in [study_embeddings], a batch in which it
    occurs once, with vector [v1], and a second batch in which it occurs
    once, with vector [v2].  Storing the first batch and then the second
    succeeds on both backends.  On PostgreSQL the key then has exactly one
    row, holding the JSON text of [v1], after the first store and still
    after the second (DO NOTHING keeps the first vector); on SQLite, with a
    positive batch size, it has exactly one row, holding [v1] after the
    first store and [v2] after the second (DO UPDATE keeps the last). *)
Theorem store_embeddings_conflict_policy (conn : connection)
    (k : composite_key) (v1 v2 : list F)
    (pre1 post1 pre2 post2 : list (composite_key * list F))
    (d1 d2 : nat) (batch : Z) :
  0 < batch →
  k ∉ se_key <$> study_embeddings conn →
  k ∉ pre1.*1 → k ∉ post1.*1 → k ∉ pre2.*1 → k ∉ post2.*1 →
  (∃ c1 c2,
     store_pairs float_repr clock conn Postgres
       (pre1 ++ (k, v1) :: post1) d1 batch = Ok c1
     ∧ store_pairs float_repr clock c1 Postgres
         (pre2 ++ (k, v2) :: post2) d2 batch = Ok c2
     ∧ embeddings_of k (study_embeddings c1) = [json_dumps float_repr "," v1]
     ∧ embeddings_of k (study_embeddings c2) = [json_dumps float_repr "," v1])
  ∧ (∃ c1 c2,
       store_pairs float_repr clock conn Sqlite
         (pre1 ++ (k, v1) :: post1) d1 batch = Ok c1
       ∧ store_pairs float_repr clock c1 Sqlite
           (pre2 ++ (k, v2) :: post2) d2 batch = Ok c2
       ∧ embeddings_of k (study_embeddings c1) = [json_dumps float_repr ", " v1]
       ∧ embeddings_of k (study_embeddings c2) = [json_dumps float_repr ", " v2]).
Proof.
  destruct k as [[a b] c]. intros Hb Hk Hpre1 Hpost1 Hpre2 Hpost2. split.
  - destruct (store_pairs_postgres conn pre1 post1 a b c v1 d1 batch Hpre1)
      as (c1 & H1 & E1).
    rewrite decide_False in E1 by done.
    destruct (store_pairs_postgres c1 pre2 post2 a b c v2 d2 batch Hpre2)
      as (c2 & H2 & E2).
    rewrite decide_True in E2 by (by eapply embeddings_of_present).
    exists c1, c2. rewrite E2. done.
  - destruct (store_pairs_sqlite conn pre1 post1 a b c v1 d1 batch Hb Hpre1 Hpost1)
      as (c1 & H1 & E1).
    rewrite decide_False in E1 by done.
    destruct (store_pairs_sqlite c1 pre2 post2 a b c v2 d2 batch Hb Hpre2 Hpost2)
      as (c2 & H2 & E2).
    rewrite decide_True in E2 by (by eapply embeddings_of_present).
    exists c1, c2. rewrite E2, E1. done.
Qed.

End ConflictPolicy.

Lemma store_embeddings_conflict_policy_witness :
  (∃ c1 c2,
     store_pairs pretty tick_clock one_record_conn Postgres
       ([] ++ (sample_key, [1; 2]) :: []) 2 5000 = Ok c1
     ∧ store_pairs pretty tick_clock c1 Postgres
         ([] ++ (sample_key, [3; 4]) :: []) 2 5000 = Ok c2
     ∧ embeddings_of sample_key (study_embeddings c1) = [json_dumps pretty "," [1; 2]]
     ∧ embeddings_of sample_key (study_embeddings c2) = [json_dumps pretty "," [1; 2]])
  ∧ (∃ c1 c2,
       store_pairs pretty tick_clock one_record_conn Sqlite
         ([] ++ (sample_key, [1; 2]) :: []) 2 5000 = Ok c1
       ∧ store_pairs pretty tick_clock c1 Sqlite
           ([] ++ (sample_key, [3; 4]) :: []) 2 5000 = Ok c2
       ∧ embeddings_of sample_key (study_embeddings c1) = [json_dumps pretty ", " [1; 2]]
       ∧ embeddings_of sample_key (study_embeddings c2) = [json_dumps pretty ", " [3; 4]]).
Proof.
  apply (store_embeddings_conflict_policy pretty tick_clock one_record_conn
           sample_key [1; 2] [3; 4] [] [] [] [] 2 2 5000).
  - lia.
  - by_decide.
  - by_decide.
  - by_decide.
  - by_decide.
  - by_decide.
Defined.

(** The same two stores, evaluated: what the table holds for the key. *)
Example keep_first_on_postgres :
  (c1 ← store_pairs pretty tick_clock one_record_conn Postgres
          [(sample_key, [1; 2])] 2 5000;
   c2 ← store_pairs pretty tick_clock c1 Postgres [(sample_key, [3; 4])] 2 5000;
   mret (embeddings_of sample_key (study_embeddings c2)))
  = Ok ["[1,2]"].
Proof. vm_compute. reflexivity. Qed.

Example keep_last_on_sqlite :
  (c1 ← store_pairs pretty tick_clock one_record_conn Sqlite
          [(sample_key, [1; 2])] 2 5000;
   c2 ← store_pairs pretty tick_clock c1 Sqlite [(sample_key, [3; 4])] 2 5000;
   mret (embeddings_of sample_key (study_embeddings c2)))
  = Ok ["[3, 4]"].
Proof. vm_compute. reflexivity. Qed.

(** ** The generate branch of [main]: running it again *)

Section Rerun.

Context {F : Type}.
Variable float_repr : F → string.
Variable clock : nat → timestamp.

Implicit Types (conn : connection) (keys : list composite_key).
Implicit Types (embeddings : @ndarray F).

Lemma data_tuples_keys keys embeddings :
  tuple_key <$> data_tuples float_repr keys embeddings
  = (zip keys (rows embeddings)).*1.
Proof.
  unfold data_tuples. rewrite <- list_fmap_compose. apply list_fmap_ext.
  intros i [[[a b] c] v] _. done.
Qed.

Lemma batch_data_keys keys (vectors : list (list F)) :
  param_key <$> batch_data float_repr keys vectors = (zip keys vectors).*1.
Proof.
  unfold batch_data. rewrite <- list_fmap_compose. apply list_fmap_ext.
  intros i [[[a b] c] v] _. done.
Qed.

(** What a successful store does to the connection: the catalog is not
    touched, the key column stays free of duplicates, and either nothing
    was written or the keys of the table are the old ones and those of
    the stored pairs. *)
Lemma store_embeddings_effect conn db keys embeddings batch conn' :
  store_embeddings float_repr clock conn db keys embeddings batch = Ok conn' →
  gwas_catalog conn' = gwas_catalog conn
  ∧ (NoDup (se_key <$> study_embeddings conn) →
     NoDup (se_key <$> study_embeddings conn'))
  ∧ (conn' = conn
     ∨ ∀ k, k ∈ se_key <$> study_embeddings conn'
            ↔ k ∈ se_key <$> study_embeddings conn
              ∨ k ∈ (zip keys (rows embeddings)).*1).
Proof.
  destruct db.
  - destruct (store_embeddings_postgres float_repr clock conn keys embeddings batch)
      as [n ->].
    intros [= <-]. simpl. split; [done|]. split.
    + apply foldl_insert_do_nothing_NoDup.
    + right. intros k.
      rewrite foldl_insert_do_nothing_keys, data_tuples_keys. done.
  - destruct (Z.lt_trichotomy batch 0) as [Hb|[Hb|Hb]].
    + rewrite (proj1 (store_embeddings_sqlite_nonpositive float_repr clock
                        conn keys embeddings batch ltac:(lia)) Hb).
      intros [= <-]. tauto.
    + intros Hs.
      pose proof (proj2 (store_embeddings_sqlite_nonpositive float_repr clock
                           conn keys embeddings batch ltac:(lia)) Hb) as Hr.
      rewrite Hs in Hr. done.
    + rewrite store_embeddings_sqlite by done. intros [= <-].
      split; [apply foldl_execute_one_catalog|]. split.
      * apply foldl_execute_one_NoDup.
      * right. intros k. rewrite foldl_execute_one_keys, batch_data_keys. done.
Qed.

Lemma generate_embeddings_rows (model : @sentence_transformer F) texts batch d :
  List.length (rows (generate_embeddings model texts batch d))
  = List.length (rows (model (generate_embeddings_call texts batch))).
Proof.
  unfold generate_embeddings. destruct (_ <? _); [|done].
  unfold truncate_columns. simpl. by rewrite length_fmap.
Qed.

Lemma anti_join_query_keys conn :
  study_key <$> anti_join_query conn
  = gc_key <$> filter (λ g, gc_key g ∉ se_key <$> study_embeddings conn)
                      (gwas_catalog conn).
Proof.
  rewrite anti_join_query_filter, <- list_fmap_compose. done.
Qed.

(** Once every catalog key has a row, nothing is left to fetch. *)
Lemma anti_join_query_nil conn :
  (∀ g, g ∈ gwas_catalog conn → gc_key g ∈ se_key <$> study_embeddings conn) →
  anti_join_query conn = [].
Proof.
  intros Hall. rewrite anti_join_query_filter.
  destruct (filter _ _) as [|g gs] eqn:E; [done|].
  assert (g ∈ filter (λ g, gc_key g ∉ se_key <$> study_embeddings conn)
                     (gwas_catalog conn)) as Hg by (rewrite E; left).
  apply list_elem_of_filter in Hg as [Hn Hg]. destruct Hn. by apply Hall.
Qed.

Lemma main_generate_conn model a db w :
  w_conn (main_generate float_repr clock model a db w).1
  = generate_conn float_repr clock model a db (w_conn w).
Proof.
  unfold main_generate, generate_conn.
  destruct (fetch_studies (w_conn w) db (arg_limit a)) as [[|s studies]|e];
    [done| |done].
  destruct (store_embeddings _ _ _ _ _ _ _); done.
Qed.






End Rerun.

(** ** The generate branch on a concrete world *)


(** The scenario of the specification, on the world above: one of the two
    records is unmatched, and its key and text blob are what is fetched. *)
Example fetch_studies_scenario :
  fetch_studies (w_conn two_record_world) Postgres None
  = Ok [("GCST0002", "rs456", "C", " bmi  ")].
Proof. reflexivity. Qed.

(** Beyond the claim: with a limit the second run embeds further records,
    so two runs leave more rows than one. *)
Example main_generate_with_limit :
  List.length (study_embeddings (w_conn
    (main_generate pretty tick_clock constant_model limit_one_args Postgres
       three_record_world).1)) = 1%nat
  ∧ List.length (study_embeddings (w_conn
      (main_generate pretty tick_clock constant_model limit_one_args Postgres
         (main_generate pretty tick_clock constant_model limit_one_args Postgres
            three_record_world).1).1)) = 2%nat.
Proof. split; vm_compute; reflexivity. Qed.


(** * Further properties *)

(** ** [str.split] and [str.join] *)

Lemma string_app_nil_r (a : string) : a ++ EmptyString = a.
Proof. induction a as [|x a IH]; [done|]. by rewrite string_app_cons, IH. Qed.

Lemma string_app_assoc (a b c : string) : (a ++ b) ++ c = a ++ (b ++ c).
Proof.
  induction a as [|x a IH]; [done|]. by rewrite !string_app_cons, IH.
Qed.

Lemma has_char_count c s : has_char c s = false ↔ count_char c s = 0%nat.
Proof.
  induction s as [|c' s IH]; simpl; [done|].
  destruct (Ascii.eqb c' c); simpl; [split; [done | lia]|]. exact IH.
Qed.

Lemma count_char_app c (a b : string) :
  count_char c (a ++ b) = (count_char c a + count_char c b)%nat.
Proof.
  induction a as [|x a IH]; [done|].
  rewrite string_app_cons. simpl. rewrite IH. lia.
Qed.

Lemma py_split_cons sep s : ∃ p ps, py_split sep s = p :: ps.
Proof.
  pose proof (py_split_length sep s) as H.
  destruct (py_split sep s) as [|p ps]; [done | eauto].
Qed.

(** No part of a split holds the separator. *)
Lemma py_split_parts_free sep s :
  Forall (λ p, count_char sep p = 0%nat) (py_split sep s).
Proof.
  induction s as [|c s IH]; simpl.
  - by repeat constructor.
  - destruct (Ascii.eqb c sep) eqn:E; [by constructor|].
    destruct (py_split sep s) as [|p ps]; simpl.
    + repeat constructor. simpl. by rewrite E.
    + apply Forall_cons in IH as [Hp Hps]. constructor; [|done].
      simpl. by rewrite E.
Qed.

Lemma py_join_cons sep p q ps :
  py_join sep (p :: q :: ps) = p ++ sep ++ py_join sep (q :: ps).
Proof. reflexivity. Qed.

(** Joining the parts of a split with the separator gives the string back. *)
Lemma py_join_split sep s :
  py_join (String sep EmptyString) (py_split sep s) = s.
Proof.
  induction s as [|c s IH]; [done|]. simpl py_split.
  destruct (py_split_cons sep s) as (p & ps & Hs). rewrite Hs in *.
  destruct (Ascii.eqb_spec c sep) as [->|_].
  - rewrite py_join_cons, IH. done.
  - destruct ps as [|q ps].
    + simpl in *. by rewrite IH.
    + rewrite py_join_cons in *. rewrite string_app_cons, IH. done.
Qed.

Lemma py_split_free sep a :
  count_char sep a = 0%nat → py_split sep a = [a].
Proof.
  induction a as [|c a IH]; simpl; [done|].
  destruct (Ascii.eqb c sep); [done|]. intros H. by rewrite IH.
Qed.

Lemma py_split_app sep a rest :
  count_char sep a = 0%nat →
  py_split sep (a ++ String sep rest) = a :: py_split sep rest.
Proof.
  induction a as [|c a IH].
  - intros _. rewrite string_app_nil_l. simpl. by rewrite Ascii.eqb_refl.
  - rewrite string_app_cons. simpl.
    destruct (Ascii.eqb c sep); [done|]. intros H. by rewrite IH.
Qed.

Lemma py_join_last sep p ps :
  ∃ pre, py_join sep (p :: ps) = pre ++ default EmptyString (last (p :: ps))
         ∧ (ps = [] → pre = EmptyString)
         ∧ (ps ≠ [] → ∃ pre', pre = pre' ++ sep).
Proof.
  revert p. induction ps as [|q qs IH]; intros p.
  - exists EmptyString. done.
  - destruct (IH q) as (pre1 & Hj & Hnil & Hcons).
    exists (p ++ sep ++ pre1). rewrite py_join_cons, Hj, last_cons_cons.
    rewrite !string_app_assoc. split; [done|]. split; [done|]. intros _.
    destruct qs as [|r rs].
    + rewrite Hnil by done. exists p. by rewrite string_app_nil_r.
    + destruct Hcons as [pre' ->]; [done|].
      exists (p ++ sep ++ pre'). by rewrite !string_app_assoc.
Qed.

(** ** [get_db_connection] *)

Lemma safe_conn_of_spec s :
  ∃ pre, s = pre ++ safe_conn_of s
         ∧ has_char "@" (safe_conn_of s) = false
         ∧ (has_char "@" s = true → ∃ pre', pre = pre' ++ "@")
         ∧ (has_char "@" s = false → safe_conn_of s = s).
Proof.
  unfold safe_conn_of. destruct (has_char "@" s) eqn:E.
  - destruct (py_split_cons "@" s) as (p & ps & Hs).
    destruct (py_join_last "@" p ps) as (pre & Hj & _ & Hcons).
    rewrite <- Hs, py_join_split in Hj. exists pre. split; [done|]. split.
    + apply has_char_count.
      pose proof (py_split_parts_free "@" s) as Hall. rewrite Hs in *.
      destruct (last (p :: ps)) as [l|] eqn:El; [|done].
      apply last_Some_elem_of in El.
      rewrite List.Forall_forall in Hall. apply Hall.
      by apply list_elem_of_In.
    + split; [|done]. intros _. apply Hcons. intros ->.
      pose proof (py_split_length "@" s) as Hl. rewrite Hs in Hl. simpl in Hl.
      assert (count_char "@" s = 0%nat) as H0 by lia.
      apply has_char_count in H0. congruence.
  - exists EmptyString. done.
Qed.

(** X1.  For a non-empty connection string the function prints one host
    line; what it shows holds no [@], is the end of the connection string,
    and, when the string has an [@], starts right after its last one: the
    user name and the password before it are not printed. *)
Theorem get_db_connection_hides_credentials (os : os_env) (s : string) :
  s ≠ EmptyString →
  ∃ h pre,
    (get_db_connection os (Some s)).1 = [ConnectingToPostgres; Host h]
    ∧ s = pre ++ h
    ∧ has_char "@" h = false
    ∧ (has_char "@" s = true → ∃ pre', pre = pre' ++ "@")
    ∧ (has_char "@" s = false → h = s).
Proof.
  intros Hs. destruct (safe_conn_of_spec s) as (pre & H1 & H2 & H3 & H4).
  exists (safe_conn_of s), pre. unfold get_db_connection.
  destruct (String.eqb_spec s EmptyString) as [?|_]; [done|]. done.
Qed.

(** X2.  A successful call returns the PostgreSQL backend exactly when it
    was given a non-empty connection string, and then the connection the
    driver opened for that string; otherwise ([None] or the empty string)
    it returns the SQLite backend, opened on the path of [GWAS_DB_PATH], or
    on [localdata/gwas_catalog.sqlite] when the variable is unset, and
    that path exists. *)
Theorem get_db_connection_backend (os : os_env)
    (postgres_conn_str : option string) (conn : connection) (db : db_type) :
  (get_db_connection os postgres_conn_str).2 = Ok (conn, db) →
  (db = Postgres
   ∧ ∃ s, postgres_conn_str = Some s ∧ s ≠ EmptyString
          ∧ psycopg2_connect os s = Ok conn)
  ∨ (db = Sqlite
     ∧ (postgres_conn_str = None ∨ postgres_conn_str = Some EmptyString)
     ∧ ∃ db_path,
         db_path = default "localdata/gwas_catalog.sqlite"
                           (environ os !! "GWAS_DB_PATH")
         ∧ path_exists os db_path = true
         ∧ sqlite3_connect os db_path = Ok conn).
Proof.
  assert (∀ c d, (connect_sqlite os).2 = Ok (c, d) →
            d = Sqlite
            ∧ ∃ db_path,
                db_path = default "localdata/gwas_catalog.sqlite"
                                  (environ os !! "GWAS_DB_PATH")
                ∧ path_exists os db_path = true
                ∧ sqlite3_connect os db_path = Ok c) as Hsqlite.
  { intros c d. unfold connect_sqlite. simpl.
    destruct (path_exists os _) eqn:Hex; [|done].
    destruct (sqlite3_connect os _) as [c'|e] eqn:Hc; [|done].
    intros [= <- <-]. split; [done|]. eexists. done. }
  unfold get_db_connection. destruct postgres_conn_str as [s|].
  - destruct (String.eqb_spec s EmptyString) as [->|Hne].
    + intros H. apply Hsqlite in H as [-> H]. right. tauto.
    + simpl. destruct (psycopg2_connect os s) as [c'|e] eqn:Hc; [|done].
      intros [= <- <-]. left. split; [done|]. exists s. done.
  - intros H. apply Hsqlite in H as [-> H]. right. tauto.
Qed.

(** X3.  Without a PostgreSQL connection string, when nothing exists at the
    SQLite path, the outcome is the [FileNotFoundError] that names the
    path, whatever the SQLite driver would have done with it. *)
Theorem get_db_connection_missing_sqlite (os : os_env)
    (postgres_conn_str : option string) :
  postgres_conn_str = None ∨ postgres_conn_str = Some EmptyString →
  let db_path :=
    default "localdata/gwas_catalog.sqlite" (environ os !! "GWAS_DB_PATH") in
  path_exists os db_path = false →
  get_db_connection os postgres_conn_str
  = ([ConnectingToSqlite db_path],
     Raise (FileNotFoundError ("SQLite database not found at " ++ db_path))).
Proof.
  intros Hs db_path Hex. subst db_path.
  assert (get_db_connection os postgres_conn_str = connect_sqlite os) as ->.
  { by destruct Hs as [-> | ->]. }
  unfold connect_sqlite. by rewrite Hex.
Qed.

(** An environment with a PostgreSQL server and no SQLite file. *)
Definition sample_os : os_env :=
  {| environ := {["POSTGRES_DB" := "postgresql://user:p@ss@db.example.org:5432/gwas"]};
     path_exists := λ _, false;
     psycopg2_connect := λ _, Ok one_record_conn;
     sqlite3_connect := λ _, Ok one_record_conn |}.

Lemma get_db_connection_hides_credentials_witness :
  ∃ h pre,
    (get_db_connection sample_os
       (Some "postgresql://user:p@ss@db.example.org:5432/gwas")).1
    = [ConnectingToPostgres; Host h]
    ∧ "postgresql://user:p@ss@db.example.org:5432/gwas" = pre ++ h
    ∧ has_char "@" h = false
    ∧ (has_char "@" "postgresql://user:p@ss@db.example.org:5432/gwas" = true →
       ∃ pre', pre = pre' ++ "@")
    ∧ (has_char "@" "postgresql://user:p@ss@db.example.org:5432/gwas" = false →
       h = "postgresql://user:p@ss@db.example.org:5432/gwas").
Proof.
  apply (get_db_connection_hides_credentials sample_os
           "postgresql://user:p@ss@db.example.org:5432/gwas").
  discriminate.
Defined.

Example safe_conn_of_example :
  safe_conn_of "postgresql://user:p@ss@db.example.org:5432/gwas"
  = "db.example.org:5432/gwas".
Proof. reflexivity. Qed.

Lemma get_db_connection_backend_witness :
  (Postgres = Postgres
   ∧ ∃ s, Some "postgresql://u:p@h/db" = Some s ∧ s ≠ EmptyString
          ∧ psycopg2_connect sample_os s = Ok one_record_conn)
  ∨ (Postgres = Sqlite
     ∧ (Some "postgresql://u:p@h/db" = None
        ∨ Some "postgresql://u:p@h/db" = Some EmptyString)
     ∧ ∃ db_path,
         db_path = default "localdata/gwas_catalog.sqlite"
                           (environ sample_os !! "GWAS_DB_PATH")
         ∧ path_exists sample_os db_path = true
         ∧ sqlite3_connect sample_os db_path = Ok one_record_conn).
Proof.
  apply (get_db_connection_backend sample_os (Some "postgresql://u:p@h/db")
           one_record_conn Postgres).
  reflexivity.
Defined.

Lemma get_db_connection_missing_sqlite_witness :
  get_db_connection sample_os None
  = ([ConnectingToSqlite "localdata/gwas_catalog.sqlite"],
     Raise (FileNotFoundError
              "SQLite database not found at localdata/gwas_catalog.sqlite")).
Proof.
  apply (get_db_connection_missing_sqlite sample_os None).
  - by left.
  - reflexivity.
Defined.

(** ** The local cache: further properties *)

Lemma bar_app_cons (x : string) : "|" ++ x = String "|" x.
Proof. reflexivity. Qed.

Lemma py_split_legacy_key a b c :
  count_char "|" a = 0%nat → count_char "|" b = 0%nat →
  count_char "|" c = 0%nat →
  py_split "|" (a ++ "|" ++ b ++ "|" ++ c) = [a; b; c].
Proof.
  intros Ha Hb Hc. rewrite !bar_app_cons.
  rewrite py_split_app, py_split_app, py_split_free by done. done.
Qed.

Lemma parse_study_key_joined a b c :
  bar_free (a, b, c) →
  parse_study_key (a ++ "|" ++ b ++ "|" ++ c) = Ok (a, b, c).
Proof.
  intros (Ha & Hb & Hc). simpl in Ha, Hb, Hc.
  unfold parse_study_key. by rewrite py_split_legacy_key.
Qed.

(** X4.  A legacy key string parses to the triple [(a, b, c)] exactly when
    it is [a|b|c] and none of the three components holds a [|]: parsing
    inverts joining, and only for such components. *)
Theorem parse_study_key_inversion (key a b c : string) :
  parse_study_key key = Ok (a, b, c)
  ↔ key = a ++ "|" ++ b ++ "|" ++ c ∧ bar_free (a, b, c).
Proof.
  split.
  - intros Hp.
    assert (py_split "|" key = [a; b; c]) as Hs.
    { unfold parse_study_key in Hp.
      destruct (py_split "|" key) as [|p0 [|p1 [|p2 [|p3 ps]]]]; try done.
      by injection Hp as -> -> ->. }
    pose proof (py_join_split "|" key) as Hj. rewrite Hs in Hj.
    pose proof (py_split_parts_free "|" key) as Hf. rewrite Hs in Hf.
    apply Forall_cons in Hf as [Ha Hf]. apply Forall_cons in Hf as [Hb Hf].
    apply Forall_cons in Hf as [Hc _].
    split; [by rewrite <- Hj|]. done.
  - intros [-> Hfree]. by apply parse_study_key_joined.
Qed.

Lemma three_parts_legacy_key k : three_parts (legacy_key k) ↔ bar_free k.
Proof.
  destruct k as [[a b] c]. unfold legacy_key, bar_free. simpl.
  rewrite three_parts_delimiters, !bar_app_cons, !count_char_app. simpl.
  rewrite !count_char_app. simpl. lia.
Qed.

Lemma parse_legacy_keys (keys : list composite_key) :
  Forall bar_free keys →
  mapM parse_study_key (legacy_key <$> keys) = Ok keys.
Proof.
  induction 1 as [|[[a b] c] keys Hk _ IH]; [done|].
  rewrite fmap_cons, mapM_result_cons.
  change (legacy_key (a, b, c)) with (a ++ "|" ++ b ++ "|" ++ c).
  rewrite parse_study_key_joined by done.
  simpl. by rewrite IH.
Qed.

Lemma zip3_lookup {A B C : Type} (a : list A) (b : list B) (c : list C)
    i x y z :
  zip3 a b c !! i = Some (x, y, z)
  ↔ a !! i = Some x ∧ b !! i = Some y ∧ c !! i = Some z.
Proof.
  revert b c i. induction a as [|a0 a IH]; intros b c i.
  - simpl. split; [done | by intros [? _]].
  - destruct b as [|b0 b]; [split; [done | by intros (_ & ? & _)]|].
    destruct c as [|c0 c]; [split; [done | by intros (_ & _ & ?)]|].
    destruct i as [|i]; simpl.
    + split; [by intros [= -> -> ->] | by intros ([= ->] & [= ->] & [= ->])].
    + apply IH.
Qed.

Lemma zip3_length {A B C : Type} (a : list A) (b : list B) (c : list C) :
  List.length (zip3 a b c)
  = (List.length a `min` (List.length b `min` List.length c))%nat.
Proof.
  revert b c. induction a as [|a0 a IH]; intros b c; [done|].
  destruct b as [|b0 b]; [done|]. destruct c as [|c0 c]; [done|].
  simpl. by rewrite IH.
Qed.

Lemma string_length_app (a b : string) :
  String.length (a ++ b) = (String.length a + String.length b)%nat.
Proof.
  induction a as [|x a IH]; [done|]. rewrite string_app_cons. simpl.
  by rewrite IH.
Qed.

Lemma npz_name_fresh filepath :
  ends_with filepath ".npz" = false → npz_name filepath ≠ filepath.
Proof.
  intros He. unfold npz_name. rewrite He. intros Heq.
  apply (f_equal String.length) in Heq.
  rewrite string_length_app in Heq. simpl in Heq. lia.
Qed.

Section CacheMore.

Context {F : Type}.

Implicit Types (data : gmap string (@npy F)) (E : @npy F).
Implicit Types (fs : gmap string (gmap string (@npy F))).

(** X5.  A legacy archive whose key strings are the [|]-joined triples of
    a key list loads exactly when no component of any key holds a [|], and
    then to that very key list: the legacy schema cannot carry a key with a
    [|] in it. *)
Theorem load_legacy_round_trip fs filepath data (keys : list composite_key) E d :
  fs !! filepath = Some data →
  data !! "study_keys" = Some (NpyObjects (legacy_key <$> keys)) →
  data !! "embeddings" = Some E →
  data !! "dimensions" = Some (NpyScalar d) →
  (is_ok (load_embeddings_from_file fs filepath) = true ↔ Forall bar_free keys)
  ∧ (Forall bar_free keys →
     load_embeddings_from_file fs filepath = Ok (keys, E)).
Proof.
  intros Hf Hk He Hd.
  rewrite (load_embeddings_from_file_keys _ _ _ _ _ Hf He Hd).
  rewrite (load_composite_keys_legacy _ _ Hk). split.
  - transitivity (is_ok (mapM parse_study_key (legacy_key <$> keys)) = true).
    { destruct (mapM parse_study_key (legacy_key <$> keys)); done. }
    rewrite parse_study_keys_is_ok, Forall_fmap.
    apply Forall_iff. intros k. apply three_parts_legacy_key.
  - intros Hall. by rewrite parse_legacy_keys.
Qed.

(** X6.  The loader fails, in this order: with [FileNotFoundError] and the
    text [File not found: <path>] when there is no file at the path; with
    numpy's [KeyError] for the member [embeddings] when the archive has no
    vectors; with numpy's [KeyError] for [dimensions] when it has vectors
    but no dimension scalar, although the scalar is only printed; and, in
    the current schema, with numpy's [KeyError] for [snps] when that array
    is missing, not with the invalid-file-format error. *)
Theorem load_embeddings_from_file_errors fs filepath :
  (fs !! filepath = None →
   load_embeddings_from_file fs filepath
   = Raise (FileNotFoundError ("File not found: " ++ filepath)))
  ∧ (∀ data, fs !! filepath = Some data →
       data !! "embeddings" = None →
       load_embeddings_from_file fs filepath
       = Raise (KeyError "embeddings is not a file in the archive"))
  ∧ (∀ data E, fs !! filepath = Some data →
       data !! "embeddings" = Some E →
       data !! "dimensions" = None →
       load_embeddings_from_file fs filepath
       = Raise (KeyError "dimensions is not a file in the archive"))
  ∧ (∀ data E d a, fs !! filepath = Some data →
       data !! "embeddings" = Some E →
       data !! "dimensions" = Some (NpyScalar d) →
       data !! "study_keys" = None →
       data !! "study_accessions" = Some (NpyObjects a) →
       data !! "snps" = None →
       load_embeddings_from_file fs filepath
       = Raise (KeyError "snps is not a file in the archive")).
Proof.
  split; [|split; [|split]].
  - unfold load_embeddings_from_file. by intros ->.
  - unfold load_embeddings_from_file, getitem. intros data -> ->. done.
  - unfold load_embeddings_from_file, getitem. intros data E -> -> ->. done.
  - intros data E d a Hf He Hd Hk Ha Hs.
    rewrite (load_embeddings_from_file_keys _ _ _ _ _ Hf He Hd).
    unfold load_composite_keys.
    rewrite (contains_None _ _ Hk), (contains_Some _ _ _ Ha).
    rewrite (getitem_Some _ _ _ Ha). simpl. unfold getitem. rewrite Hs. done.
Qed.

(** X7.  In the current schema the three key arrays are zipped: when their
    lengths differ the load still succeeds and returns as many keys as the
    shortest array has entries, the [i]-th key being the [i]-th entries of
    the three; the surplus entries are dropped without an error. *)
Theorem load_current_schema_zips fs filepath data a s r E d :
  fs !! filepath = Some data →
  data !! "study_keys" = None →
  data !! "study_accessions" = Some (NpyObjects a) →
  data !! "snps" = Some (NpyObjects s) →
  data !! "risk_alleles" = Some (NpyObjects r) →
  data !! "embeddings" = Some E →
  data !! "dimensions" = Some (NpyScalar d) →
  ∃ keys,
    load_embeddings_from_file fs filepath = Ok (keys, E)
    ∧ List.length keys
      = (List.length a `min` (List.length s `min` List.length r))%nat
    ∧ ∀ i x y z, keys !! i = Some (x, y, z)
                 ↔ a !! i = Some x ∧ s !! i = Some y ∧ r !! i = Some z.
Proof.
  intros Hf Hk Ha Hs Hr He Hd. exists (zip3 a s r).
  rewrite (load_embeddings_from_file_keys _ _ _ _ _ Hf He Hd).
  rewrite (load_composite_keys_current _ _ _ _ Hk Ha Hs Hr).
  split; [done|]. split; [apply zip3_length|]. intros. apply zip3_lookup.
Qed.

(** X8.  On a disk that holds archives only, saving leaves every file
    other than the one with the [.npz] extension as it was, and it can
    return normally only when a file exists under the name as given, that
    is, when the name already ends in [.npz] or such a file was there
    before: for a new name without the extension the call never returns
    normally. *)
Theorem save_embeddings_to_file_outcome fs (filepath : string)
    (composite_keys : list composite_key) (embeddings : @ndarray F) :
  let saved := save_embeddings_to_file fs filepath composite_keys embeddings in
  (∀ p, p ≠ npz_name filepath → saved.1 !! p = fs !! p)
  ∧ (saved.2 = Ok tt →
     ends_with filepath ".npz" = true ∨ is_Some (fs !! filepath))
  ∧ (ends_with filepath ".npz" = false → fs !! filepath = None →
     saved.2 ≠ Ok tt).
Proof.
  intros saved. subst saved. unfold save_embeddings_to_file. simpl.
  split; [intros p Hp; by rewrite lookup_insert_ne|].
  destruct (ends_with filepath ".npz") eqn:He.
  - split; [by left | done].
  - rewrite lookup_insert_ne by by apply npz_name_fresh.
    destruct (fs !! filepath) as [x|] eqn:Hx.
    + split; [intros _; right; by eexists | done].
    + split; [done|]. intros _ _. done.
Qed.

End CacheMore.

(** A legacy archive made by joining the components of a key. *)
Definition joined_archive : gmap string (@npy Z) :=
  <["study_keys" := NpyObjects (legacy_key <$> [sample_key])]>
    (archive_of [] one_row).

Definition joined_fs : gmap string (gmap string (@npy Z)) :=
  {["old.npz" := joined_archive]}.

(** An archive with vectors and nothing else. *)
Definition vectors_only_archive : gmap string (@npy Z) :=
  <["embeddings" := NpyFloats one_row]> ∅.

Definition vectors_only_fs : gmap string (gmap string (@npy Z)) :=
  {["cache.npz" := vectors_only_archive]}.

Lemma load_legacy_round_trip_witness :
  load_embeddings_from_file joined_fs "old.npz"
  = Ok ([sample_key], NpyFloats one_row).
Proof.
  apply (proj2 (load_legacy_round_trip joined_fs "old.npz" joined_archive
                  [sample_key] (NpyFloats one_row) 2
                  ltac:(by_compute) ltac:(by_compute) ltac:(by_compute)
                  ltac:(by_compute))).
  repeat constructor.
Defined.

Lemma save_embeddings_to_file_outcome_witness :
  (save_embeddings_to_file ∅ "backup" [sample_key] one_row).2 ≠ Ok tt.
Proof.
  apply (proj2 (proj2 (save_embeddings_to_file_outcome ∅ "backup"
                         [sample_key] one_row))); by_compute.
Defined.

Lemma load_embeddings_from_file_errors_witness :
  load_embeddings_from_file vectors_only_fs "cache.npz"
  = Raise (KeyError "dimensions is not a file in the archive").
Proof.
  apply (proj1 (proj2 (proj2 (load_embeddings_from_file_errors
                                vectors_only_fs "cache.npz")))
               vectors_only_archive (NpyFloats one_row)
               ltac:(by_compute) ltac:(by_compute) ltac:(by_compute)).
Defined.

(** Current-schema arrays of lengths 2, 1 and 2. *)
Definition ragged_archive : gmap string (@npy Z) :=
  <["study_accessions" := NpyObjects ["GCST0001"; "GCST0002"]]>
  (<["snps" := NpyObjects ["rs123"]]>
  (<["risk_alleles" := NpyObjects ["A"; "C"]]>
  (<["embeddings" := NpyFloats one_row]>
  (<["dimensions" := NpyScalar 2]> ∅)))).

Definition ragged_fs : gmap string (gmap string (@npy Z)) :=
  {["cache.npz" := ragged_archive]}.

Lemma load_current_schema_zips_witness :
  ∃ keys,
    load_embeddings_from_file ragged_fs "cache.npz" = Ok (keys, NpyFloats one_row)
    ∧ List.length keys
      = (List.length ["GCST0001"; "GCST0002"]
           `min` (List.length ["rs123"] `min` List.length ["A"; "C"]))%nat
    ∧ ∀ i x y z, keys !! i = Some (x, y, z)
                 ↔ ["GCST0001"; "GCST0002"] !! i = Some x
                   ∧ ["rs123"] !! i = Some y ∧ ["A"; "C"] !! i = Some z.
Proof.
  apply (load_current_schema_zips ragged_fs "cache.npz" ragged_archive
           ["GCST0001"; "GCST0002"] ["rs123"] ["A"; "C"] (NpyFloats one_row) 2);
    by_compute.
Defined.

Example load_ragged_archive :
  load_embeddings_from_file ragged_fs "cache.npz"
  = Ok ([("GCST0001", "rs123", "A")], NpyFloats one_row).
Proof. by_compute. Qed.

(** ** [generate_embeddings]: further properties *)

Lemma slice_stop_le n d : (slice_stop n d ≤ n)%nat.
Proof.
  unfold slice_stop. destruct (Z.ltb_spec d 0); [lia | apply Nat.le_min_r].
Qed.

Lemma slice_stop_negative n d :
  d < 0 → slice_stop n d = Z.to_nat (Z.of_nat n + d).
Proof. intros Hd. unfold slice_stop. destruct (Z.ltb_spec d 0); lia. Qed.

Lemma all_space_app (a b : string) :
  all_space (a ++ b) = all_space a && all_space b.
Proof.
  induction a as [|x a IH]; [done|]. rewrite string_app_cons. simpl.
  rewrite IH. by rewrite andb_assoc.
Qed.

Lemma strip_all_space s : all_space s = true → strip s = EmptyString.
Proof.
  unfold strip. induction s as [|c s IH]; [done|]. simpl.
  intros [Hc Hs]%andb_true_iff. rewrite Hc. by apply IH.
Qed.

Section GenerateMore.

Context {F : Type}.

(** X9.  Whatever dimension is requested, negative ones included, the
    result has as many rows as the model returned and no more columns; and
    when every row of the model output has [shape[1]] components, every
    row of the result has the result's [shape[1]] components. *)
Theorem generate_embeddings_well_shaped (model : @sentence_transformer F)
    (texts : list string) (batch D : Z) :
  let out := model (generate_embeddings_call texts batch) in
  let res := generate_embeddings model texts batch D in
  List.length (rows res) = List.length (rows out)
  ∧ (ncols res ≤ ncols out)%nat
  ∧ (well_shaped out → well_shaped res).
Proof.
  intros out res. subst res. unfold generate_embeddings. fold out.
  destruct (D <? Z.of_nat (ncols out)); [|done].
  unfold truncate_columns, well_shaped. simpl.
  pose proof (slice_stop_le (ncols out) D) as Hle.
  split; [by rewrite length_fmap|]. split; [done|].
  intros Hw. apply Forall_fmap. eapply Forall_impl; [exact Hw|].
  intros r Hr. simpl. rewrite length_take, Hr. by apply Nat.min_l.
Qed.

(** X10.  A negative requested dimension is not rejected: every row of the
    model output loses its last [-D] components (all of them when [-D] is
    the native dimension or more), by Python's slicing from the end. *)
Theorem generate_embeddings_negative (model : @sentence_transformer F)
    (texts : list string) (batch D : Z) :
  D < 0 →
  let out := model (generate_embeddings_call texts batch) in
  let res := generate_embeddings model texts batch D in
  ncols res = Z.to_nat (Z.of_nat (ncols out) + D)
  ∧ rows res = take (Z.to_nat (Z.of_nat (ncols out) + D)) <$> rows out.
Proof.
  intros Hd out res. subst res. unfold generate_embeddings. fold out.
  destruct (Z.ltb_spec D (Z.of_nat (ncols out))) as [_|?]; [|lia].
  unfold truncate_columns. simpl. by rewrite slice_stop_negative.
Qed.

End GenerateMore.

(** X11.  A catalog record whose four text columns are NULL, empty or
    whitespace only is fetched with a text that strips to nothing: the
    model is given the bare marker for it, the same sentence for every
    such record. *)
Theorem blank_record_sentence (g : catalog_row) :
  all_space (coalesce (gc_mapped_trait g)) = true →
  all_space (coalesce (gc_disease_trait g)) = true →
  all_space (coalesce (gc_study g)) = true →
  all_space (coalesce (gc_mapped_gene g)) = true →
  prefixed_texts [study_text (study_of g)] = ["search_document: "].
Proof.
  intros H1 H2 H3 H4. unfold prefixed_texts, study_of, study_text. simpl.
  rewrite strip_all_space; [done|]. unfold combined_text.
  rewrite !all_space_app, H1, H2, H3, H4. done.
Qed.

Lemma generate_embeddings_well_shaped_witness :
  well_shaped (generate_embeddings two_row_model ["a"; "b"] 512 (-1)).
Proof.
  apply (generate_embeddings_well_shaped two_row_model ["a"; "b"] 512 (-1)).
  repeat constructor.
Defined.

Lemma generate_embeddings_negative_witness :
  ncols (generate_embeddings two_row_model ["a"; "b"] 512 (-1)) = 2%nat
  ∧ rows (generate_embeddings two_row_model ["a"; "b"] 512 (-1))
    = [[1; 2]; [4; 5]].
Proof.
  apply (generate_embeddings_negative two_row_model ["a"; "b"] 512 (-1)). lia.
Defined.

Lemma blank_record_sentence_witness :
  prefixed_texts
    [study_text (study_of
       (mk_catalog_row "GCST0003" "rs789" "T" None (Some " ") None None))]
  = ["search_document: "].
Proof.
  apply (blank_record_sentence
           (mk_catalog_row "GCST0003" "rs789" "T" None (Some " ") None None));
    reflexivity.
Defined.

(** ** [store_embeddings]: further properties *)

Lemma zip_fst_take {A B : Type} (l : list A) (k : list B) :
  (zip l k).*1 = take (List.length k) l.
Proof.
  revert k. induction l as [|x l IH]; intros k; [by destruct k|].
  destruct k as [|y k]; [done|]. simpl. by rewrite IH.
Qed.

Lemma created_of_update now k k' e tbl :
  created_of k (do_update_set now k' e <$> tbl) = created_of k tbl.
Proof.
  unfold created_of. induction tbl as [|r tbl IH]; [done|].
  rewrite fmap_cons, !filter_cons, se_key_do_update_set.
  destruct (decide _) as [Hr|Hr]; [|done].
  rewrite !fmap_cons, IH. f_equal.
  unfold do_update_set. by destruct (decide _).
Qed.

Lemma created_of_snoc_other k tbl r :
  se_key r ≠ k → created_of k (tbl ++ [r]) = created_of k tbl.
Proof.
  intros Hne. unfold created_of.
  rewrite filter_app, filter_cons, decide_False by done.
  by rewrite filter_nil, app_nil_r.
Qed.

Lemma insert_do_nothing_created now tbl t k :
  k ∈ se_key <$> tbl →
  created_of k (insert_do_nothing now tbl t) = created_of k tbl.
Proof.
  destruct t as [[[a b] c] e]. unfold insert_do_nothing. intros Hk.
  destruct (decide _) as [Hc|Hc]; [done|].
  apply created_of_snoc_other. unfold se_key. simpl. by intros <-.
Qed.

Lemma insert_do_update_created now tbl t k :
  k ∈ se_key <$> tbl →
  created_of k (insert_do_update now tbl t) = created_of k tbl.
Proof.
  destruct t as [[[[a b] c] e] e']. unfold insert_do_update. intros Hk.
  destruct (decide _) as [Hc|Hc]; [apply created_of_update|].
  apply created_of_snoc_other. unfold se_key. simpl. by intros <-.
Qed.

Lemma foldl_insert_do_nothing_created now tbl ts k :
  k ∈ se_key <$> tbl →
  created_of k (foldl (insert_do_nothing now) tbl ts) = created_of k tbl.
Proof.
  revert tbl. induction ts as [|t ts IH]; intros tbl Hk; [done|].
  rewrite foldl_step, IH.
  - by apply insert_do_nothing_created.
  - rewrite insert_do_nothing_keys, elem_of_keys_step. by left.
Qed.

Lemma insert_do_nothing_length now tbl t :
  (List.length tbl ≤ List.length (insert_do_nothing now tbl t)
   ≤ S (List.length tbl))%nat.
Proof.
  destruct t as [[[a b] c] e]. unfold insert_do_nothing.
  destruct (decide _); [lia|]. rewrite length_app. simpl. lia.
Qed.

Lemma insert_do_update_length now tbl t :
  (List.length tbl ≤ List.length (insert_do_update now tbl t)
   ≤ S (List.length tbl))%nat.
Proof.
  destruct t as [[[[a b] c] e] e']. unfold insert_do_update.
  destruct (decide _); [rewrite length_fmap; lia|].
  rewrite length_app. simpl. lia.
Qed.

Lemma foldl_insert_do_nothing_length now tbl ts :
  (List.length tbl ≤ List.length (foldl (insert_do_nothing now) tbl ts)
   ≤ List.length tbl + List.length ts)%nat.
Proof.
  revert tbl. induction ts as [|t ts IH]; intros tbl; [simpl; lia|].
  rewrite foldl_step. specialize (IH (insert_do_nothing now tbl t)).
  pose proof (insert_do_nothing_length now tbl t). simpl. lia.
Qed.

(** DO NOTHING over a batch only appends: the rows that were there stay,
    in place and untouched, and every new row carries the time of the
    statement twice and a key the table did not have. *)
Lemma foldl_insert_do_nothing_appends now tbl ts :
  ∃ added,
    foldl (insert_do_nothing now) tbl ts = (tbl ++ added)%list
    ∧ Forall (λ r, se_created_at r = now ∧ se_updated_at r = now
                   ∧ (se_key r ∉ se_key <$> tbl)
                   ∧ se_key r ∈ tuple_key <$> ts) added.
Proof.
  revert tbl. induction ts as [|t ts IH]; intros tbl.
  - exists []. by rewrite app_nil_r.
  - rewrite foldl_step.
    destruct (IH (insert_do_nothing now tbl t)) as (added & -> & Hall).
    destruct t as [[[a b] c] e]. unfold insert_do_nothing in *.
    destruct (decide _) as [Hc|Hc].
    + exists added. split; [done|].
      eapply Forall_impl; [exact Hall|]. intros r (? & ? & ? & ?).
      repeat split; [done..|]. by apply list_elem_of_further.
    + eexists (_ :: added). rewrite <- app_assoc. split; [done|].
      constructor.
      * repeat split; [done..|]. apply list_elem_of_here.
      * eapply Forall_impl; [exact Hall|]. intros r (? & ? & Hn & ?).
        rewrite fmap_app, elem_of_app in Hn.
        repeat split; [done | done | tauto |]. by apply list_elem_of_further.
Qed.

Section StoreMore.

Context {F : Type}.
Variable float_repr : F → string.
Variable clock : nat → timestamp.

Implicit Types (conn : connection) (keys : list composite_key).
Implicit Types (embeddings : @ndarray F).

Lemma foldl_execute_one_created conn ts k :
  k ∈ se_key <$> study_embeddings conn →
  created_of k (study_embeddings (foldl (execute_one clock) conn ts))
  = created_of k (study_embeddings conn).
Proof.
  revert conn. induction ts as [|t ts IH]; intros conn Hk; [done|].
  rewrite foldl_step, IH; rewrite execute_one_table.
  - by apply insert_do_update_created.
  - rewrite insert_do_update_keys, elem_of_keys_step. by left.
Qed.

Lemma foldl_execute_one_length conn ts :
  (List.length (study_embeddings conn)
   ≤ List.length (study_embeddings (foldl (execute_one clock) conn ts))
   ≤ List.length (study_embeddings conn) + List.length ts)%nat.
Proof.
  revert conn. induction ts as [|t ts IH]; intros conn; [simpl; lia|].
  rewrite foldl_step. specialize (IH (execute_one clock conn t)).
  rewrite execute_one_table in IH.
  pose proof (insert_do_update_length (clock (statements conn))
                (study_embeddings conn) t). simpl. lia.
Qed.

Lemma data_tuples_length keys embeddings :
  List.length (data_tuples float_repr keys embeddings)
  = (List.length keys `min` List.length (rows embeddings))%nat.
Proof. unfold data_tuples. by rewrite length_fmap, length_zip. Qed.

Lemma batch_data_length_min keys (vectors : list (list F)) :
  List.length (batch_data float_repr keys vectors)
  = (List.length keys `min` List.length vectors)%nat.
Proof. unfold batch_data. by rewrite length_fmap, length_zip. Qed.

(** The three ways a store can end well: nothing written (SQLite, negative
    batch size), the PostgreSQL inserts, the SQLite upserts. *)
Lemma store_embeddings_cases conn db keys embeddings batch conn' :
  store_embeddings float_repr clock conn db keys embeddings batch = Ok conn' →
  (db = Sqlite ∧ batch < 0 ∧ conn' = conn)
  ∨ (db = Postgres
     ∧ gwas_catalog conn' = gwas_catalog conn
     ∧ study_embeddings conn'
       = foldl (insert_do_nothing (clock (statements conn)))
               (study_embeddings conn) (data_tuples float_repr keys embeddings))
  ∨ (db = Sqlite ∧ 0 < batch
     ∧ conn' = foldl (execute_one clock) conn
                     (batch_data float_repr keys (rows embeddings))).
Proof.
  destruct db.
  - destruct (store_embeddings_postgres float_repr clock conn keys embeddings batch)
      as [n ->].
    intros [= <-]. right. left. done.
  - destruct (Z.lt_trichotomy batch 0) as [Hb|[Hb|Hb]].
    + rewrite (proj1 (store_embeddings_sqlite_nonpositive float_repr clock
                        conn keys embeddings batch ltac:(lia)) Hb).
      intros [= <-]. by left.
    + intros Hs.
      pose proof (proj2 (store_embeddings_sqlite_nonpositive float_repr clock
                           conn keys embeddings batch ltac:(lia)) Hb) as Hr.
      rewrite Hs in Hr. done.
    + rewrite store_embeddings_sqlite by done. intros [= <-].
      right. right. done.
Qed.

Lemma store_embeddings_key_set conn db keys embeddings batch conn' :
  db = Postgres ∨ 0 < batch →
  store_embeddings float_repr clock conn db keys embeddings batch = Ok conn' →
  ∀ k, k ∈ se_key <$> study_embeddings conn'
       ↔ k ∈ se_key <$> study_embeddings conn
         ∨ k ∈ take (List.length (rows embeddings)) keys.
Proof.
  intros Hdb Hs k. rewrite <- zip_fst_take.
  apply store_embeddings_cases in Hs
    as [(-> & Hb & _)|[(-> & _ & ->)|(-> & _ & ->)]].
  - destruct Hdb; [done | lia].
  - by rewrite foldl_insert_do_nothing_keys, data_tuples_keys.
  - by rewrite foldl_execute_one_keys, batch_data_keys.
Qed.

Lemma store_embeddings_length conn db keys embeddings batch conn' :
  store_embeddings float_repr clock conn db keys embeddings batch = Ok conn' →
  (List.length (study_embeddings conn)
   ≤ List.length (study_embeddings conn')
   ≤ List.length (study_embeddings conn)
     + (List.length keys `min` List.length (rows embeddings)))%nat.
Proof.
  intros Hs.
  apply store_embeddings_cases in Hs
    as [(_ & _ & ->)|[(_ & _ & ->)|(_ & _ & ->)]].
  - lia.
  - rewrite <- data_tuples_length. apply foldl_insert_do_nothing_length.
  - rewrite <- batch_data_length_min. apply foldl_execute_one_length.
Qed.

(** X12.  A store that returns normally never touches [gwas_catalog],
    never removes a key from [study_embeddings], and keeps a key column
    without duplicates free of duplicates. *)
Theorem store_embeddings_preserves conn db keys embeddings batch conn' :
  store_embeddings float_repr clock conn db keys embeddings batch = Ok conn' →
  gwas_catalog conn' = gwas_catalog conn
  ∧ (∀ k, k ∈ se_key <$> study_embeddings conn →
          k ∈ se_key <$> study_embeddings conn')
  ∧ (NoDup (se_key <$> study_embeddings conn) →
     NoDup (se_key <$> study_embeddings conn')).
Proof.
  intros Hs. apply store_embeddings_effect in Hs as (Hcat & Hnd & Hkeys).
  split; [done|]. split; [|done].
  intros k Hk. destruct Hkeys as [->|Hkeys]; [done|]. apply Hkeys. by left.
Qed.

(** X13.  On PostgreSQL, and on SQLite with a positive batch size, after a
    store the keys of the table are the old ones and the first [n] of the
    given keys, [n] being the number of rows of the array: keys beyond the
    last vector are dropped without an error.  A fetch on the connection
    it leaves returns none of the stored keys. *)
Theorem store_embeddings_keys conn db keys embeddings batch conn' :
  db = Postgres ∨ 0 < batch →
  store_embeddings float_repr clock conn db keys embeddings batch = Ok conn' →
  (∀ k, k ∈ se_key <$> study_embeddings conn'
        ↔ k ∈ se_key <$> study_embeddings conn
          ∨ k ∈ take (List.length (rows embeddings)) keys)
  ∧ (∀ limit studies s,
       fetch_studies conn' db limit = Ok studies → s ∈ studies →
       study_key s ∉ take (List.length (rows embeddings)) keys).
Proof.
  intros Hdb Hs. pose proof (store_embeddings_key_set _ _ _ _ _ _ Hdb Hs) as Hkeys.
  split; [done|].
  intros limit studies s Hf Hin Hk.
  apply fetch_studies_sublist in Hf as [n ->].
  apply subseteq_take in Hin.
  apply elem_of_anti_join_query in Hin as (g & -> & _ & Hn).
  apply Hn. apply Hkeys. right. done.
Qed.

(** X14.  On SQLite the upload batch size only cuts the work into
    statements' batches: any two positive sizes leave the same connection,
    rows, timestamps and statement count included. *)
Theorem store_embeddings_sqlite_batch_size conn keys embeddings
    (batch batch' : Z) :
  0 < batch → 0 < batch' →
  store_embeddings float_repr clock conn Sqlite keys embeddings batch
  = store_embeddings float_repr clock conn Sqlite keys embeddings batch'.
Proof. intros Hb Hb'. by rewrite !store_embeddings_sqlite. Qed.

(** X15.  The batch size is not validated.  On SQLite a negative one makes
    the loop empty, so the function itself writes nothing and raises
    nothing, and 0 raises the [ValueError] of [range] before anything is
    written; on PostgreSQL the argument is not used: what the call does is
    the same for every batch size. *)
Theorem store_embeddings_batch_size_edge conn keys embeddings
    (batch batch' : Z) :
  (batch < 0 →
   store_embeddings float_repr clock conn Sqlite keys embeddings batch = Ok conn)
  ∧ store_embeddings float_repr clock conn Sqlite keys embeddings 0
    = Raise (ValueError "range() arg 3 must not be zero")
  ∧ store_embeddings float_repr clock conn Postgres keys embeddings batch
    = store_embeddings float_repr clock conn Postgres keys embeddings batch'.
Proof.
  split; [|split].
  - intros Hb.
    apply (proj1 (store_embeddings_sqlite_nonpositive float_repr clock
                    conn keys embeddings batch ltac:(lia)) Hb).
  - done.
  - done.
Qed.

(** X16.  On PostgreSQL a store only appends: the table afterwards is the
    old table, row for row, followed by new rows, each of which has a key
    the old table did not have, taken from the stored keys, and carries
    the transaction's time as both [created_at] and [updated_at]. *)
Theorem store_embeddings_postgres_appends conn keys embeddings batch conn' :
  store_embeddings float_repr clock conn Postgres keys embeddings batch
  = Ok conn' →
  ∃ added,
    study_embeddings conn' = (study_embeddings conn ++ added)%list
    ∧ Forall (λ r, se_created_at r = clock (statements conn)
                   ∧ se_updated_at r = clock (statements conn)
                   ∧ (se_key r ∉ se_key <$> study_embeddings conn)
                   ∧ se_key r ∈ take (List.length (rows embeddings)) keys)
             added.
Proof.
  intros Hs.
  apply store_embeddings_cases in Hs as [(? & _)|[(_ & _ & ->)|(? & _)]];
    try done.
  destruct (foldl_insert_do_nothing_appends (clock (statements conn))
              (study_embeddings conn) (data_tuples float_repr keys embeddings))
    as (added & -> & Hall).
  exists added. split; [done|].
  rewrite data_tuples_keys, zip_fst_take in Hall. done.
Qed.

(** X17.  On both backends a store never changes the [created_at] of a key
    that already has a row: DO NOTHING leaves the row alone and DO UPDATE
    sets only the vector and [updated_at]. *)
Theorem store_embeddings_keeps_created_at conn db keys embeddings batch
    conn' (k : composite_key) :
  store_embeddings float_repr clock conn db keys embeddings batch = Ok conn' →
  k ∈ se_key <$> study_embeddings conn →
  created_of k (study_embeddings conn') = created_of k (study_embeddings conn).
Proof.
  intros Hs Hk.
  apply store_embeddings_cases in Hs
    as [(_ & _ & ->)|[(_ & _ & ->)|(_ & _ & ->)]].
  - done.
  - by apply foldl_insert_do_nothing_created.
  - by apply foldl_execute_one_created.
Qed.

(** X18.  A store never shrinks [study_embeddings], and adds at most one
    row per (key, vector) pair: at most as many as there are keys, and as
    there are rows in the array. *)
Theorem store_embeddings_row_count conn db keys embeddings batch conn' :
  store_embeddings float_repr clock conn db keys embeddings batch = Ok conn' →
  (List.length (study_embeddings conn)
   ≤ List.length (study_embeddings conn')
   ≤ List.length (study_embeddings conn)
     + (List.length keys `min` List.length (rows embeddings)))%nat.
Proof. apply store_embeddings_length. Qed.

End StoreMore.

(** The text of an integer component, for the examples. *)
Definition z_repr : Z → string := pretty.

(** A store of three keys with an array of two rows, on the world with two
    catalog records of which the first is embedded. *)
Definition three_keys : list composite_key :=
  [("GCST0001", "rs123", "A"); ("GCST0002", "rs456", "C");
   ("GCST0003", "rs789", "T")].

Definition two_rows : @ndarray Z := {| ncols := 2; rows := [[1; 2]; [3; 4]] |}.

Definition sample_store (db : db_type) (batch : Z) : result connection :=
  store_embeddings z_repr tick_clock (w_conn two_record_world) db
    three_keys two_rows batch.

(** The connection it leaves. *)
Definition sample_stored (db : db_type) (batch : Z) : connection :=
  match sample_store db batch with
  | Ok conn' => conn'
  | Raise _ => w_conn two_record_world
  end.

Lemma store_embeddings_preserves_witness :
  gwas_catalog (sample_stored Sqlite 1000)
  = gwas_catalog (w_conn two_record_world).
Proof.
  apply (proj1 (store_embeddings_preserves z_repr tick_clock
                  (w_conn two_record_world) Sqlite three_keys two_rows 1000
                  (sample_stored Sqlite 1000) ltac:(by_compute))).
Defined.

Lemma store_embeddings_keys_witness :
  ("GCST0003", "rs789", "T")
    ∈ se_key <$> study_embeddings (sample_stored Postgres 1000)
  ↔ ("GCST0003", "rs789", "T")
      ∈ se_key <$> study_embeddings (w_conn two_record_world)
    ∨ ("GCST0003", "rs789", "T")
        ∈ take (List.length (rows two_rows)) three_keys.
Proof.
  apply (proj1 (store_embeddings_keys z_repr tick_clock
                  (w_conn two_record_world) Postgres three_keys two_rows 1000
                  (sample_stored Postgres 1000)
                  (or_introl eq_refl) ltac:(by_compute))
               ("GCST0003", "rs789", "T")).
Defined.

Lemma store_embeddings_sqlite_batch_size_witness :
  sample_store Sqlite 1 = sample_store Sqlite 5000.
Proof.
  apply (store_embeddings_sqlite_batch_size z_repr tick_clock
           (w_conn two_record_world) three_keys two_rows 1 5000); lia.
Defined.

Lemma store_embeddings_postgres_appends_witness :
  ∃ added,
    study_embeddings (sample_stored Postgres 1000)
    = (study_embeddings (w_conn two_record_world) ++ added)%list
    ∧ Forall (λ r, se_created_at r = tick_clock (statements (w_conn two_record_world))
                   ∧ se_updated_at r = tick_clock (statements (w_conn two_record_world))
                   ∧ (se_key r ∉ se_key <$> study_embeddings (w_conn two_record_world))
                   ∧ se_key r ∈ take (List.length (rows two_rows)) three_keys)
             added.
Proof.
  apply (store_embeddings_postgres_appends z_repr tick_clock
           (w_conn two_record_world) three_keys two_rows 1000
           (sample_stored Postgres 1000)).
  by_compute.
Defined.

Lemma store_embeddings_keeps_created_at_witness :
  created_of sample_key (study_embeddings (sample_stored Sqlite 1000))
  = created_of sample_key (study_embeddings (w_conn two_record_world)).
Proof.
  apply (store_embeddings_keeps_created_at z_repr tick_clock
           (w_conn two_record_world) Sqlite three_keys two_rows 1000
           (sample_stored Sqlite 1000) sample_key).
  - by_compute.
  - by_decide.
Defined.

Lemma store_embeddings_row_count_witness :
  (List.length (study_embeddings (w_conn two_record_world))
   ≤ List.length (study_embeddings (sample_stored Sqlite 1000))
   ≤ List.length (study_embeddings (w_conn two_record_world))
     + (List.length three_keys `min` List.length (rows two_rows)))%nat.
Proof.
  apply (store_embeddings_row_count z_repr tick_clock
           (w_conn two_record_world) Sqlite three_keys two_rows 1000
           (sample_stored Sqlite 1000)).
  by_compute.
Defined.

(** The store above, evaluated on SQLite: the first key is updated and
    keeps its [created_at], the second is added, the third has no vector
    and is dropped. *)
Example sample_stored_sqlite :
  study_embeddings (sample_stored Sqlite 1000)
  = [mk_embedding_row "GCST0001" "rs123" "A" "[1, 2]" 0%nat 1%nat;
     mk_embedding_row "GCST0002" "rs456" "C" "[3, 4]" 2%nat 2%nat].
Proof. by_compute. Qed.

(** ** The generate branch of [main]: further properties *)

Lemma anti_join_query_nil_inv conn :
  anti_join_query conn = [] →
  ∀ g, g ∈ gwas_catalog conn → gc_key g ∈ se_key <$> study_embeddings conn.
Proof.
  intros Hq g Hg.
  destruct (decide (gc_key g ∈ se_key <$> study_embeddings conn)) as [|Hn];
    [done|].
  assert (study_of g ∈ anti_join_query conn) as Hin
    by (apply elem_of_anti_join_query; eauto).
  rewrite Hq in Hin. by apply elem_of_nil in Hin.
Qed.

Lemma fetch_studies_length conn db n studies :
  0 < n → fetch_studies conn db (Some n) = Ok studies →
  (List.length studies ≤ Z.to_nat n)%nat.
Proof.
  intros Hn. unfold fetch_studies, sql_limit.
  destruct (Z.eqb_spec n 0) as [?|_]; [lia|].
  destruct (Z.ltb_spec n 0) as [?|_]; [lia|].
  intros [= <-]. rewrite length_take. apply Nat.le_min_l.
Qed.

Section MainMore.

Context {F : Type}.
Variable float_repr : F → string.
Variable clock : nat → timestamp.

Implicit Types (model : @sentence_transformer F) (w : @world F).
Implicit Types (fs : gmap string (gmap string (@npy F))).

(** Loading what a save wrote, by the extended name. *)
Lemma load_saved fs (filepath : string) (keys : list composite_key)
    (embeddings : @ndarray F) :
  load_embeddings_from_file
    (save_embeddings_to_file fs filepath keys embeddings).1 (npz_name filepath)
  = Ok (keys, NpyFloats embeddings).
Proof.
  unfold save_embeddings_to_file. simpl.
  rewrite (load_embeddings_from_file_keys _ _
             (archive_of keys embeddings) (NpyFloats embeddings)
             (Z.of_nat (ncols embeddings)));
    [|apply lookup_insert_eq|done|done].
  rewrite (load_composite_keys_current _
             ((λ k, k.1.1) <$> keys) ((λ k, k.1.2) <$> keys)
             ((λ k, k.2) <$> keys)) by done.
  by rewrite zip3_projections.
Qed.

(** X19.  When every catalog record already has its embedding, and the
    limit is not one PostgreSQL rejects, the run ends with status 0 and
    has changed nothing: no row is written and, even with [--save-local],
    no file. *)
Theorem main_generate_nothing_to_do model (a : args) (db : db_type) w :
  (∀ g, g ∈ gwas_catalog (w_conn w) →
        gc_key g ∈ se_key <$> study_embeddings (w_conn w)) →
  (∀ n, arg_limit a = Some n → 0 ≤ n ∨ db = Sqlite) →
  main_generate float_repr clock model a db w = (w, 0).
Proof.
  intros Hall Hlimit. apply anti_join_query_nil in Hall.
  assert (fetch_studies (w_conn w) db (arg_limit a) = Ok []) as Hf.
  { unfold fetch_studies, sql_limit. rewrite Hall.
    destruct (arg_limit a) as [n|]; [|done].
    destruct (n =? 0); [done|].
    destruct (Z.ltb_spec n 0) as [Hn|_]; [|by rewrite take_nil].
    destruct (Hlimit n eq_refl) as [?| ->]; [lia | done]. }
  unfold main_generate. by rewrite Hf.
Qed.

(** X20.  Without a limit, with a model that returns one row per sentence,
    on PostgreSQL or with a positive upload batch size, a run ends with
    status 0 and leaves every catalog record with an embedding: a fetch
    right after it finds nothing. *)
Theorem main_generate_embeds_all model (a : args) (db : db_type) w :
  (∀ call, List.length (rows (model call)) = List.length (sentences call)) →
  arg_limit a = None →
  db = Postgres ∨ 0 < arg_upload_batch_size a →
  let r := main_generate float_repr clock model a db w in
  r.2 = 0
  ∧ (∀ g, g ∈ gwas_catalog (w_conn w) →
          gc_key g ∈ se_key <$> study_embeddings (w_conn r.1))
  ∧ fetch_studies (w_conn r.1) db None = Ok [].
Proof.
  intros Hmodel Hlimit Hdb r.
  assert (r.2 = 0
          ∧ gwas_catalog (w_conn r.1) = gwas_catalog (w_conn w)
          ∧ ∀ g, g ∈ gwas_catalog (w_conn w) →
                 gc_key g ∈ se_key <$> study_embeddings (w_conn r.1))
    as (H0 & Hcat & Hall).
  { subst r. unfold main_generate. rewrite Hlimit. simpl fetch_studies.
    destruct (anti_join_query (w_conn w)) as [|s studies] eqn:Hq.
    { split; [done|]. split; [done|]. by apply anti_join_query_nil_inv. }
    rewrite <- Hq.
    destruct (store_embeddings _ _ _ _ _ _ _) as [conn'|e] eqn:Hs.
    2:{ exfalso. destruct Hdb as [-> | Hb].
        - edestruct (store_embeddings_postgres float_repr clock (w_conn w))
            as [n Hn]. rewrite Hn in Hs. done.
        - destruct db.
          + edestruct (store_embeddings_postgres float_repr clock (w_conn w))
              as [n Hn]. rewrite Hn in Hs. done.
          + rewrite store_embeddings_sqlite in Hs by done. done. }
    simpl. split; [done|].
    pose proof (store_embeddings_key_set _ _ _ _ _ _ _ _ Hdb Hs) as Hkeys.
    apply store_embeddings_effect in Hs as (Hcat & _ & _).
    split; [done|]. intros g Hg. apply Hkeys.
    destruct (decide (gc_key g ∈ se_key <$> study_embeddings (w_conn w)))
      as [|Hn]; [by left|right].
    rewrite generate_embeddings_rows, Hmodel. simpl.
    unfold prefixed_texts. rewrite !length_fmap, <- (length_fmap study_key).
    rewrite firstn_all, anti_join_query_keys. apply list_elem_of_fmap.
    exists g. split; [done|]. apply list_elem_of_filter. done. }
  split; [done|]. split; [done|].
  simpl. rewrite anti_join_query_nil; [done|].
  intros g Hg. rewrite Hcat in Hg. by apply Hall.
Qed.

(** X21.  A run never removes a row from [study_embeddings], and with a
    positive limit [n] it adds at most [n] rows. *)
Theorem main_generate_row_count model (a : args) (db : db_type) w :
  let r := main_generate float_repr clock model a db w in
  (List.length (study_embeddings (w_conn w))
   ≤ List.length (study_embeddings (w_conn r.1)))%nat
  ∧ (∀ n, arg_limit a = Some n → 0 < n →
       (List.length (study_embeddings (w_conn r.1))
        ≤ List.length (study_embeddings (w_conn w)) + Z.to_nat n)%nat).
Proof.
  intros r. subst r. rewrite main_generate_conn. unfold generate_conn.
  destruct (fetch_studies (w_conn w) db (arg_limit a)) as [[|s studies]|e]
    eqn:Hf; [split; intros; lia| |split; intros; lia].
  destruct (store_embeddings _ _ _ _ _ _ _) as [conn'|e] eqn:Hs;
    [|split; intros; lia].
  apply store_embeddings_length in Hs. split; [lia|].
  intros n Hl Hn. rewrite Hl in Hf.
  apply fetch_studies_length in Hf; [|done].
  rewrite length_fmap in Hs.
  pose proof (Nat.le_min_l (List.length (s :: studies))
                (List.length (rows (generate_embeddings model
                   (study_text <$> s :: studies) (arg_batch_size a)
                   (arg_dimensions a))))).
  lia.
Qed.



(** ** The load branch of [main] *)

(** X24.  Restoring is uploading: after a save of keys and vectors, when
    storing those keys and vectors returns normally, the load branch run on
    the saved file ends with status 0 and leaves the connection that this
    store leaves, without touching the files. *)
Theorem main_load_restores fs (filepath : string)
    (keys : list composite_key) (embeddings : @ndarray F)
    (a : args) (db : db_type) (conn conn' : connection) :
  let fs' := (save_embeddings_to_file fs filepath keys embeddings).1 in
  store_embeddings float_repr clock conn db keys embeddings
    (arg_upload_batch_size a) = Ok conn' →
  main_load float_repr clock (npz_name filepath) a db
    {| w_conn := conn; w_fs := fs' |}
  = Some ({| w_conn := conn'; w_fs := fs' |}, 0).
Proof.
  intros fs' Hs. subst fs'. unfold main_load. cbn [w_fs w_conn].
  rewrite load_saved, Hs. done.
Qed.

(** X25.  When the loader raises one of the errors the script or numpy
    raises on an archive of the expected member types (no file, a missing
    member, a legacy key that does not have three parts, neither marker),
    the load branch ends with status 1 having changed nothing: it fails
    before a connection is asked for.  And every run of the branch that the
    model covers leaves the files and [gwas_catalog] as they were, with
    status 0 or 1. *)
Theorem main_load_safe (load_local : string) (a : args) (db : db_type) w :
  (∀ e, load_embeddings_from_file (w_fs w) load_local = Raise e →
        (∀ msg, e ≠ TypeError msg) →
        main_load float_repr clock load_local a db w = Some (w, 1))
  ∧ (∀ r, main_load float_repr clock load_local a db w = Some r →
       w_fs r.1 = w_fs w
       ∧ gwas_catalog (w_conn r.1) = gwas_catalog (w_conn w)
       ∧ (r.2 = 0 ∨ r.2 = 1)).
Proof.
  unfold main_load.
  destruct (load_embeddings_from_file (w_fs w) load_local)
    as [[keys [items|arr|z]]|e]; (split; [try done|]); try done.
  - destruct (store_embeddings _ _ _ _ _ _ _) as [conn'|e] eqn:Hs;
      intros r [= <-]; simpl.
    + apply store_embeddings_effect in Hs as (Hcat & _ & _). auto.
    + auto.
  - intros e' [= <-] Hne. destruct e as [m|m|m|m|m|m]; try done.
    by destruct (Hne m).
  - destruct e; try done; intros r [= <-]; auto.
Qed.

End MainMore.

(** ** [fetch_studies]: the rows *)

(** X26.  The fetched rows are, in catalog scan order, the rows built from
    the catalog rows whose key has no embedding, one per catalog row (a
    key that the catalog holds twice is fetched twice); a limit keeps a
    prefix of them, and without a limit, or with the limit 0, all of them
    are returned. *)
Theorem fetch_studies_rows (conn : connection) (db : db_type)
    (limit : option Z) (studies : list study) :
  fetch_studies conn db limit = Ok studies →
  studies `prefix_of`
    (study_of <$> filter (λ g, gc_key g ∉ se_key <$> study_embeddings conn)
                         (gwas_catalog conn))
  ∧ (limit = None ∨ limit = Some 0 →
     studies
     = study_of <$> filter (λ g, gc_key g ∉ se_key <$> study_embeddings conn)
                           (gwas_catalog conn)).
Proof.
  intros Hf. rewrite <- anti_join_query_filter. split.
  - apply fetch_studies_sublist in Hf as [n ->].
    exists (drop n (anti_join_query conn)). by rewrite take_drop.
  - intros [-> | ->]; by injection Hf as <-.
Qed.

(** A catalog that holds one key twice, with different texts. *)
Definition repeated_key_conn : connection :=
  {| gwas_catalog :=
       [mk_catalog_row "GCST0001" "rs123" "A" (Some "height") None None None;
        mk_catalog_row "GCST0001" "rs123" "A" (Some "stature") None None None];
     study_embeddings := [];
     statements := 0%nat |}.

Lemma fetch_studies_rows_witness :
  [("GCST0001", "rs123", "A", "height   ");
   ("GCST0001", "rs123", "A", "stature   ")]
  = study_of <$> filter (λ g, gc_key g ∉ se_key <$> study_embeddings repeated_key_conn)
                        (gwas_catalog repeated_key_conn).
Proof.
  apply (proj2 (fetch_studies_rows repeated_key_conn Sqlite None
                  [("GCST0001", "rs123", "A", "height   ");
                   ("GCST0001", "rs123", "A", "stature   ")]
                  eq_refl)).
  by left.
Defined.

(** ** The two branches of [main] on concrete worlds *)

(** One catalog record, with its embedding. *)
Definition embedded_world : @world Z :=
  {| w_conn :=
       {| gwas_catalog :=
            [mk_catalog_row "GCST0001" "rs123" "A" (Some "height") None None None];
          study_embeddings :=
            [mk_embedding_row "GCST0001" "rs123" "A" "[9,9]" 0%nat 0%nat];
          statements := 1%nat |};
     w_fs := ∅ |}.

Lemma main_generate_nothing_to_do_witness :
  main_generate z_repr tick_clock constant_model limit_one_args Postgres
    embedded_world
  = (embedded_world, 0).
Proof.
  apply (main_generate_nothing_to_do z_repr tick_clock constant_model
           limit_one_args Postgres embedded_world).
  - intros g Hg. apply list_elem_of_singleton in Hg as ->. by_decide.
  - intros n [= <-]. left. lia.
Defined.

Lemma main_generate_embeds_all_witness :
  fetch_studies
    (w_conn (main_generate z_repr tick_clock constant_model default_args Sqlite
               two_record_world).1) Sqlite None
  = Ok [].
Proof.
  apply (proj2 (proj2 (main_generate_embeds_all z_repr tick_clock
                         constant_model default_args Sqlite two_record_world
                         (λ call, length_fmap (λ _, [1; 2; 3]) (sentences call))
                         eq_refl (or_intror eq_refl)))).
Defined.


(** A world whose only file is a saved backup of one key. *)
Definition backup_world : @world Z :=
  {| w_conn := one_record_conn;
     w_fs := (save_embeddings_to_file ∅ "backup.npz" [sample_key] one_row).1 |}.

(** The connection a direct store of that key leaves. *)
Definition restored_conn : connection :=
  {| gwas_catalog := gwas_catalog one_record_conn;
     study_embeddings :=
       [mk_embedding_row "GCST0001" "rs123" "A" "[1,2]" 0%nat 0%nat];
     statements := 1%nat |}.

Lemma main_load_restores_witness :
  main_load z_repr tick_clock (npz_name "backup.npz") default_args Postgres
    backup_world
  = Some ({| w_conn := restored_conn; w_fs := w_fs backup_world |}, 0).
Proof.
  apply (main_load_restores z_repr tick_clock ∅ "backup.npz" [sample_key]
           one_row default_args Postgres one_record_conn restored_conn).
  by_compute.
Defined.

Lemma main_load_safe_witness :
  main_load z_repr tick_clock "missing.npz" default_args Sqlite backup_world
  = Some (backup_world, 1).
Proof.
  apply (proj1 (main_load_safe z_repr tick_clock "missing.npz" default_args
                  Sqlite backup_world)
               (FileNotFoundError "File not found: missing.npz")).
  - by_compute.
  - discriminate.
Defined.

